(** * Subreddit data downloader: the comment grouper and the post-comment joiner

    A shallow embedding of [process_comments_in_chunks] and
    [match_posts_with_top_comments] of [main.py], with the Python
    operations they rely on, and the properties of the streaming join.
    Around them: the scan of the directory by
    [process_files_in_directory], the names that [decompress_file] and
    [main] give to the files, [download_file] on an answer that is
    received whole, and the loop of [main] that reads the names of the
    subreddits.

    Conventions of the embedding.
    - A JSON document read by [json.loads] is a [value].  Numbers are the
      integers of JSON; a number written with a fraction or an exponent
      (a Python float) is outside the model.
    - [json.loads] itself belongs to the Python library, not to the
      program: it is a parameter [loads] of the development, returning
      either the document or the message of the [JSONDecodeError].
    - Strings are byte strings.  The program only searches them for ASCII
      needles, which gives the same answer on UTF-8 bytes and on code
      points.
    - An exception that no handler of the program catches is an explicit
      result, [Raise].
    - A file is its list of lines; a path names a file or nothing.  For
      [download_file], which writes bytes, a file is its content.
    - [os.listdir], [os.path.join] and [int] belong to the Python
      library: the listing is part of the directory that is scanned, and
      the other two are parameters where they are used. *)

From Stdlib Require Import ZArith String Ascii Lia.
From Stdlib Require Import DecimalString.
From stdpp Require Import gmap strings list.

Local Open Scope string_scope.
Local Open Scope list_scope.
Local Open Scope Z_scope.

(** ** Python values *)

#[warnings="-register-all"]
Inductive value : Type :=
| VNone
| VBool (b : bool)
| VInt (z : Z)
| VStr (s : string)
| VList (l : list value)
| VDict (kvs : list (string * value)).

(** The exceptions the two functions can let escape. *)
Inductive exn : Type := TypeError | AttributeError.

Inductive outcome (A : Type) : Type :=
| Ok (a : A)
| Raise (e : exn).
Arguments Ok {A} a.
Arguments Raise {A} e.

Definition bind {A B : Type} (m : outcome A) (f : A -> outcome B) : outcome B :=
  match m with
  | Ok a => f a
  | Raise e => Raise e
  end.

Notation "'let*' x ':=' m 'in' k" := (bind m (fun x => k))
  (at level 10, x name, m at level 100, k at level 200).

(** [bool(v)]. *)
Definition truthy (v : value) : bool :=
  match v with
  | VNone => false
  | VBool b => b
  | VInt z => negb (z =? 0)
  | VStr s => negb (String.eqb s EmptyString)
  | VList l => match l with [] => false | _ => true end
  | VDict kvs => match kvs with [] => false | _ => true end
  end.

(** [bool] is a subclass of [int]: [True] counts as 1, [False] as 0. *)
Definition as_int (v : value) : option Z :=
  match v with
  | VInt z => Some z
  | VBool b => Some (Z.b2z b)
  | _ => None
  end.

Fixpoint assoc (k : string) (kvs : list (string * value)) : option value :=
  match kvs with
  | [] => None
  | (k', v) :: rest => if String.eqb k k' then Some v else assoc k rest
  end.

(** [d.get(k, default)]: only a dict has the method. *)
Definition py_get (d : value) (k : string) (default : value) : outcome value :=
  match d with
  | VDict kvs => Ok (match assoc k kvs with Some v => v | None => default end)
  | _ => Raise AttributeError
  end.

Fixpoint str_prefix (p s : string) : bool :=
  match p with
  | EmptyString => true
  | String a p' =>
      match s with
      | EmptyString => false
      | String b s' => Ascii.eqb a b && str_prefix p' s'
      end
  end.

Fixpoint str_contains (needle s : string) : bool :=
  str_prefix needle s ||
  match s with
  | EmptyString => false
  | String _ s' => str_contains needle s'
  end.

(** [v.startswith(p)]: only a str has the method. *)
Definition py_startswith (v : value) (p : string) : outcome bool :=
  match v with
  | VStr s => Ok (str_prefix p s)
  | _ => Raise AttributeError
  end.

(** [a == b]. Numbers compare by value, dicts regardless of key order. *)
Fixpoint py_eq (a b : value) : bool :=
  match a, b with
  | VNone, VNone => true
  | VStr s, VStr t => String.eqb s t
  | VList l, VList m =>
      (fix go (l m : list value) : bool :=
         match l, m with
         | [], [] => true
         | x :: l', y :: m' => py_eq x y && go l' m'
         | _, _ => false
         end) l m
  | VDict l, VDict m =>
      (length l =? length m)%nat &&
      (fix all (l : list (string * value)) : bool :=
         match l with
         | [] => true
         | (k, v) :: l' =>
             match assoc k m with
             | Some w => py_eq v w
             | None => false
             end && all l'
         end) l
  | _, _ =>
      match as_int a, as_int b with
      | Some x, Some y => x =? y
      | _, _ => false
      end
  end.

(** [needle in v] for a str needle: substring of a str, element of a
    list, key of a dict; anything else is not iterable. *)
Definition py_contains (needle : string) (v : value) : outcome bool :=
  match v with
  | VStr s => Ok (str_contains needle s)
  | VList l => Ok (existsb (py_eq (VStr needle)) l)
  | VDict kvs => Ok (existsb (fun kv => String.eqb needle (fst kv)) kvs)
  | _ => Raise TypeError
  end.

(** [a > b]: numbers by value, strs and lists lexicographically, and a
    [TypeError] for every other pair of types. *)
Fixpoint py_gt (a b : value) : outcome bool :=
  match a, b with
  | VStr s, VStr t => Ok (Stdlib.Strings.String.ltb t s)
  | VList l, VList m =>
      (fix go (l m : list value) : outcome bool :=
         match l, m with
         | x :: l', y :: m' => if py_eq x y then go l' m' else py_gt x y
         | _ :: _, [] => Ok true
         | [], _ => Ok false
         end) l m
  | _, _ =>
      match as_int a, as_int b with
      | Some x, Some y => Ok (y <? x)
      | _, _ => Raise TypeError
      end
  end.

(** [v >= n] for an int [n]. *)
Definition py_ge_int (v : value) (n : Z) : outcome bool :=
  match as_int v with
  | Some z => Ok (n <=? z)
  | None => Raise TypeError
  end.

(** ** Dictionary keys

    A dict key is a hashable value up to [==]: [1] and [True] are one
    key.  [key] is the canonical form; lists and dicts are unhashable. *)

Inductive key : Type :=
| KNone
| KInt (z : Z)
| KStr (s : string).

Definition py_hash (v : value) : outcome key :=
  match v with
  | VNone => Ok KNone
  | VBool b => Ok (KInt (Z.b2z b))
  | VInt z => Ok (KInt z)
  | VStr s => Ok (KStr s)
  | VList _ | VDict _ => Raise TypeError
  end.

#[global] Instance key_eq_dec : EqDecision key.
Proof. solve_decision. Defined.

#[global] Instance key_countable : Countable key.
Proof.
  refine (inj_countable'
    (fun k => match k with
              | KNone => inl ()
              | KInt z => inr (inl z)
              | KStr s => inr (inr s)
              end)
    (fun x => match x with
              | inl _ => KNone
              | inr (inl z) => KInt z
              | inr (inr s) => KStr s
              end) _).
  intros []; reflexivity.
Defined.

(** ** Data of the grouper *)

(** The dict [{"body": ..., "score": ...}] kept for an eligible comment. *)
Record comment : Type := Comment { body : value; score : value }.

(** What a run shows to its caller: the pairs it yields and the
    diagnostics it prints, in order. *)
Inductive event : Type :=
| Yield (link_id : key) (comments : list comment)
| Print (msg : string).

(** [comments_by_post] of the grouper, a [defaultdict(list)].  Its
    [items()] are iterated at the end of the stream, so the insertion
    order of the keys is part of the state: an association list, one
    entry per key, oldest first. *)
Definition ddict : Type := list (key * list comment).

Fixpoint dd_lookup (k : key) (d : ddict) : option (list comment) :=
  match d with
  | [] => None
  | (k', b) :: d' => if decide (k = k') then Some b else dd_lookup k d'
  end.

(** [d[k] = b]: in place when the key is there, a new last entry when
    it is not. *)
Fixpoint dd_set (k : key) (b : list comment) (d : ddict) : ddict :=
  match d with
  | [] => [(k, b)]
  | (k', b') :: d' =>
      if decide (k = k') then (k', b) :: d' else (k', b') :: dd_set k b d'
  end.

(** [d[k]] read: a missing key is first bound to a fresh empty list. *)
Definition dd_getitem (k : key) (d : ddict) : list comment * ddict :=
  match dd_lookup k d with
  | Some b => (b, d)
  | None => ([], dd_set k [] d)
  end.

(** [d[k].append(c)]. *)
Definition dd_append (k : key) (c : comment) (d : ddict) : ddict :=
  let '(b, d1) := dd_getitem k d in dd_set k (b ++ [c]) d1.

(** The loop over [comments_by_post.items()] after the last line. *)
Definition final_flush (d : ddict) : list event :=
  flat_map (fun kb : key * list comment =>
              match snd kb with
              | [] => []
              | _ :: _ => [Yield (fst kb) (snd kb)]
              end) d.

(** ** Data of the joiner *)

(** The dict handed to [writer.writerow]. *)
Record row : Type := Row {
  title : value;
  content : value;
  post_score : value;
  top_comment : value;
  comment_score : value;
  subreddit : string
}.

(** What a run of the joiner shows: diagnostics and rows, in order. *)
Inductive effect : Type :=
| Printed (msg : string)
| Written (r : row).

(** [a and b] on conditions that may raise; [b] is not looked at when
    [a] is false. *)
Definition and_then (a b : outcome bool) : outcome bool :=
  let* x := a in if x : bool then b else Ok false.

Definition py_not_in (needle : string) (v : value) : outcome bool :=
  let* x := py_contains needle v in Ok (negb x).

(** The loop of [max(..., key=lambda c: c['score'])]: the running
    maximum is replaced only by a strictly greater score. *)
Fixpoint max_from (best : comment) (rest : list comment) : outcome comment :=
  match rest with
  | [] => Ok best
  | c :: rest' =>
      let* greater := py_gt (score c) (score best) in
      max_from (if greater : bool then c else best) rest'
  end.

(** [max(l, key=lambda c: c['score'], default=None)]. *)
Definition py_max (l : list comment) : outcome (option comment) :=
  match l with
  | [] => Ok None
  | c :: rest => let* m := max_from c rest in Ok (Some m)
  end.

(** [comments_by_post[link_id].extend(comments)] on the joiner's
    [defaultdict(list)], which is only ever looked up by key. *)
Definition extend (idx : gmap key (list comment)) (k : key)
    (comments : list comment) : gmap key (list comment) :=
  <[k := default [] (idx !! k) ++ comments]> idx.

(** Lines 59 to 61: the index after the generator is exhausted. *)
Definition load_comments (evs : list event) : gmap key (list comment) :=
  foldl (fun idx ev =>
           match ev with
           | Yield k comments => extend idx k comments
           | Print _ => idx
           end) ∅ evs.

(** What the generator prints while it is drained. *)
Definition generator_prints (evs : list event) : list effect :=
  flat_map (fun ev =>
              match ev with
              | Yield _ _ => []
              | Print msg => [Printed msg]
              end) evs.

(** The bucket of [k], empty when the key is not there. *)
Definition bucket_of (k : key) (d : ddict) : list comment :=
  default [] (dd_lookup k d).

(** Everything yielded for [k], batch after batch. *)
Definition yielded_for (k : key) (evs : list event) : list comment :=
  flat_map (fun ev =>
              match ev with
              | Yield k' b => if decide (k = k') then b else []
              | Print _ => []
              end) evs.

(** The batches among the events. *)
Definition batches (evs : list event) : list (key * list comment) :=
  flat_map (fun ev =>
              match ev with
              | Yield k b => [(k, b)]
              | Print _ => []
              end) evs.

(** One entry per key. *)
Definition wf (d : ddict) : Prop := NoDup d.*1.

(** Every bucket is below the threshold. *)
Definition small (B : Z) (d : ddict) : Prop :=
  ∀ k, Z.of_nat (length (bucket_of k d)) < B.

(** [m] is the first comment of [l] with the greatest score: every
    score is an integer, those before [m] are smaller, none is
    greater. *)
Definition first_max (l : list comment) (m : comment) : Prop :=
  ∃ pre post z,
    l = pre ++ m :: post ∧ as_int (score m) = Some z ∧
    (∀ c, c ∈ pre → ∃ x, as_int (score c) = Some x ∧ x < z) ∧
    (∀ c, c ∈ post → ∃ x, as_int (score c) = Some x ∧ x ≤ z).

(** The tests of line 71 other than the one on the score of the post:
    the identifier is a key of the index, and neither the title nor the
    content holds a marker. *)
Definition passes_filters (idx : gmap key (list comment))
    (post post_id title_v content_v : value)
    (k : key) : Prop :=
  py_get post "name" VNone = Ok post_id ∧
  py_get post "title" (VStr EmptyString) = Ok title_v ∧
  py_get post "selftext" (VStr EmptyString) = Ok content_v ∧
  py_hash post_id = Ok k ∧ is_Some (idx !! k) ∧
  py_not_in "[deleted]" title_v = Ok true ∧
  py_not_in "[removed]" title_v = Ok true ∧
  py_not_in "[deleted]" content_v = Ok true ∧
  py_not_in "[removed]" content_v = Ok true.

(** A marker in a body, a title or a content. *)
Definition has_marker (v : value) : Prop :=
  py_contains "[deleted]" v = Ok true ∨ py_contains "[removed]" v = Ok true.

(** The comment [c] that the record adds to the bucket of
    [k]: link_id and parent_id are there, parent_id starts with [t3_],
    and the body holds no marker. *)
Definition eligible (record : value) (k : key) (c : comment) : Prop :=
  ∃ link_id parent_id,
    py_get record "link_id" VNone = Ok link_id ∧
    py_get record "parent_id" VNone = Ok parent_id ∧
    truthy link_id = true ∧ truthy parent_id = true ∧
    py_startswith parent_id "t3_" = Ok true ∧
    py_get record "body" VNone = Ok (body c) ∧
    py_contains "[deleted]" (body c) = Ok false ∧
    py_contains "[removed]" (body c) = Ok false ∧
    py_hash link_id = Ok k ∧
    py_get record "score" (VInt 0) = Ok (score c).

(** The records the grouper must leave out. *)
Definition excluded (record : value) : Prop :=
  (∃ body_v, py_get record "body" VNone = Ok body_v ∧ has_marker body_v) ∨
  py_get record "link_id" VNone = Ok VNone ∨
  py_get record "parent_id" VNone = Ok VNone ∨
  (∃ parent_id, py_get record "parent_id" VNone = Ok parent_id ∧
                py_startswith parent_id "t3_" ≠ Ok true).

(** A record that passes the test of line 40 with a marker in its
    body: the key of its bucket is [k], and nothing is appended. *)
Definition tombstoned (record : value) (k : key) : Prop :=
  ∃ link_id parent_id body_v,
    py_get record "link_id" VNone = Ok link_id ∧
    py_get record "parent_id" VNone = Ok parent_id ∧
    truthy link_id = true ∧ truthy parent_id = true ∧
    py_startswith parent_id "t3_" = Ok true ∧
    py_get record "body" VNone = Ok body_v ∧
    has_marker body_v ∧
    py_hash link_id = Ok k.

(** A field that is absent, [null] or a string. *)
Definition optional_str (kvs : list (string * value)) (f : string) : Prop :=
  assoc f kvs = None ∨ assoc f kvs = Some VNone ∨ ∃ s, assoc f kvs = Some (VStr s).

(** A line of the comments file as the data model has it: text that is
    not JSON, or an object whose link_id and parent_id, when there, are
    strings and whose body is a string. *)
Definition comment_line (loads : string → value + string)
    (line : string) : Prop :=
  (∃ msg, loads line = inr msg) ∨
  ∃ kvs s, loads line = inl (VDict kvs) ∧
           optional_str kvs "link_id" ∧ optional_str kvs "parent_id" ∧
           assoc "body" kvs = Some (VStr s).

(** A file system: the lines of the file at a path, if there is one. *)
Definition filesystem : Type := string -> option (list string).

Definition default_batch_size : Z := 1000.

Section Core.

(** [json.loads]: the document, or the text of the [JSONDecodeError]. *)
Variable loads : string -> value + string.

(** ** The comment grouper *)

(** The body of the [for line in f] loop, lines 36 to 51: the new
    dict and what the iteration yields or prints. *)
Definition grouper_step (batch_size : Z) (comments_by_post : ddict)
    (line : string) : outcome (ddict * list event) :=
  match loads line with
  | inr e =>
      Ok (comments_by_post,
          [Print ("Error decoding JSON in comments file: " +:+ e)])
  | inl comment =>
      let* link_id := py_get comment "link_id" VNone in
      let* parent_id := py_get comment "parent_id" VNone in
      let* direct := (if truthy link_id && truthy parent_id
                 then py_startswith parent_id "t3_"
                 else Ok false) in
      if direct : bool then
        let* body_v := py_get comment "body" VNone in
        let* deleted := py_contains "[deleted]" body_v in
        let* keep := (if negb deleted
                      then let* removed := py_contains "[removed]" body_v in
                           Ok (negb removed)
                      else Ok false) in
        let* d1 := (if keep : bool then
                      let* k := py_hash link_id in
                      let* b := py_get comment "body" VNone in
                      let* s := py_get comment "score" (VInt 0) in
                      Ok (dd_append k (Comment b s) comments_by_post)
                    else Ok comments_by_post) in
        let* k := py_hash link_id in
        let '(bucket, d2) := dd_getitem k d1 in
        if Z.of_nat (length bucket) >=? batch_size
        then Ok (dd_set k [] d2, [Yield k bucket])
        else Ok (d2, [])
      else Ok (comments_by_post, [])
  end.

(** The whole loop: the events so far and either the dict at the end
    of the stream or the exception that stopped the generator. *)
Fixpoint grouper_loop (batch_size : Z) (comments_by_post : ddict)
    (lines : list string) : list event * outcome ddict :=
  match lines with
  | [] => ([], Ok comments_by_post)
  | line :: rest =>
      match grouper_step batch_size comments_by_post line with
      | Raise e => ([], Raise e)
      | Ok (d, evs) =>
          let '(evs', r) := grouper_loop batch_size d rest in
          (evs ++ evs', r)
      end
  end.

(** [process_comments_in_chunks]: everything the generator does when it
    is run to its end, and the exception it dies of, if any.  A yielded
    list is never touched again by the generator (the dict entry is
    rebound to a new list after a yield in the loop, and nothing runs
    after the last loop), so the lists are plain values. *)
Definition process_comments_in_chunks (fs : filesystem)
    (comments_filepath : string) (batch_size : Z)
  : list event * option exn :=
  match fs comments_filepath with
  | None => ([Print ("File not found: " +:+ comments_filepath)], None)
  | Some lines =>
      match grouper_loop batch_size [] lines with
      | (evs, Raise e) => (evs, Some e)
      | (evs, Ok d) => (evs ++ final_flush d, None)
      end
  end.

(** ** What a line contributes

    The fate of one line of the comments file, as the loop body decides
    it before it looks at the dict. *)

Inductive verdict : Type :=
| Malformed (msg : string)         (* [json.loads] failed *)
| Ignored                          (* no link_id, no parent_id, or not a reply to a post *)
| Tombstone (k : key)              (* a marker in the body: nothing is appended *)
| Eligible (k : key) (c : comment) (* [c] is appended to the bucket of [k] *)
| Faulty (e : exn).                (* the iteration raises [e] *)

Definition verdict_of (line : string) : verdict :=
  match loads line with
  | inr e => Malformed e
  | inl comment =>
      let decision :=
        let* link_id := py_get comment "link_id" VNone in
        let* parent_id := py_get comment "parent_id" VNone in
        let* direct := (if truthy link_id && truthy parent_id
                        then py_startswith parent_id "t3_"
                        else Ok false) in
        if direct : bool then
          let* body_v := py_get comment "body" VNone in
          let* deleted := py_contains "[deleted]" body_v in
          let* keep := (if negb deleted
                        then let* removed := py_contains "[removed]" body_v in
                             Ok (negb removed)
                        else Ok false) in
          let* k := py_hash link_id in
          let* s := py_get comment "score" (VInt 0) in
          Ok (if keep : bool then Eligible k (Comment body_v s) else Tombstone k)
        else Ok Ignored in
      match decision with
      | Ok v => v
      | Raise e => Faulty e
      end
  end.

(** The threshold test of lines 47 to 49 for the bucket of [k]. *)
Definition flush_check (batch_size : Z) (k : key) (d : ddict)
  : ddict * list event :=
  let '(bucket, d2) := dd_getitem k d in
  if Z.of_nat (length bucket) >=? batch_size
  then (dd_set k [] d2, [Yield k bucket])
  else (d2, []).

Definition apply_verdict (batch_size : Z) (d : ddict) (v : verdict)
  : outcome (ddict * list event) :=
  match v with
  | Malformed e =>
      Ok (d, [Print ("Error decoding JSON in comments file: " +:+ e)])
  | Ignored => Ok (d, [])
  | Tombstone k => Ok (flush_check batch_size k d)
  | Eligible k c => Ok (flush_check batch_size k (dd_append k c d))
  | Faulty e => Raise e
  end.

(** The comments of the lines that are appended to the bucket of [k],
    in the order of the stream. *)
Definition entry (k : key) (v : verdict) : list comment :=
  match v with
  | Eligible k' c => if decide (k = k') then [c] else []
  | _ => []
  end.

Definition eligible_for (k : key) (lines : list string) : list comment :=
  flat_map (fun line => entry k (verdict_of line)) lines.

(** ** The post-comment joiner *)

(** The body of the loop over the posts file, lines 66 to 83. *)
Definition joiner_step (comments_by_post : gmap key (list comment))
    (subreddit_name : string) (min_score : Z) (line : string)
  : outcome (list effect) :=
  match loads line with
  | inr e => Ok [Printed ("Error decoding posts file: " +:+ e)]
  | inl post =>
      let* post_id := py_get post "name" VNone in
      let* title_v := py_get post "title" (VStr EmptyString) in
      let* content_v := py_get post "selftext" (VStr EmptyString) in
      let* score_v := py_get post "score" (VInt 0) in
      let* accepted :=
        and_then (py_ge_int score_v min_score)
       (and_then (let* k := py_hash post_id in
                  Ok (bool_decide (is_Some (comments_by_post !! k))))
       (and_then (py_not_in "[deleted]" title_v)
       (and_then (py_not_in "[removed]" title_v)
       (and_then (py_not_in "[deleted]" content_v)
                 (py_not_in "[removed]" content_v))))) in
      if accepted : bool then
        let* k := py_hash post_id in
        let* top := py_max (default [] (comments_by_post !! k)) in
        match top with
        | None => Ok []
        | Some c =>
            let* good := py_ge_int (score c) 1 in
            if good : bool then
              let* ps := py_get post "score" VNone in
              Ok [Written (Row title_v content_v ps (body c) (score c)
                               subreddit_name)]
            else Ok []
        end
      else Ok []
  end.

Fixpoint joiner_loop (comments_by_post : gmap key (list comment))
    (subreddit_name : string) (min_score : Z) (lines : list string)
  : list effect * option exn :=
  match lines with
  | [] => ([], None)
  | line :: rest =>
      match joiner_step comments_by_post subreddit_name min_score line with
      | Raise e => ([], Some e)
      | Ok effs =>
          let '(effs', r) :=
            joiner_loop comments_by_post subreddit_name min_score rest in
          (effs ++ effs', r)
      end
  end.

(** [match_posts_with_top_comments].  [comments_generator] is the
    behaviour of the generator it is given; the rows passed to
    [writer.writerow] are the [Written] effects.  An exception of the
    generator leaves the function before the posts file is opened. *)
Definition match_posts_with_top_comments (fs : filesystem)
    (posts_filepath : string) (comments_generator : list event * option exn)
    (subreddit_name : string) (min_score : Z) : list effect * option exn :=
  let '(evs, died) := comments_generator in
  match died with
  | Some e => (generator_prints evs, Some e)
  | None =>
      match fs posts_filepath with
      | None =>
          (generator_prints evs ++
             [Printed ("File not found: " +:+ posts_filepath)], None)
      | Some lines =>
          let '(effs, r) :=
            joiner_loop (load_comments evs) subreddit_name min_score lines in
          (generator_prints evs ++ effs, r)
      end
  end.

(** The rows among the effects of a run. *)
Definition rows_of (effs : list effect) : list row :=
  flat_map (fun eff =>
              match eff with
              | Written r => [r]
              | Printed _ => []
              end) effs.

End Core.

(** ** A reader for the modelled fragment of JSON

    Objects, arrays, strings with the one-letter escapes, integers,
    [true], [false] and [null], with the usual white space.  It stands
    for [json.loads] wherever a property is run on the text of a file;
    the properties themselves hold for every [loads].

    It is [json.loads] on that fragment only, and the files below stay
    inside it: a number with a fraction or an exponent and an escape
    [\uXXXX], which [json.loads] reads, are refused here.  For a line
    that is not JSON it gives the first words of the message of the
    [JSONDecodeError], [Expecting value] or [Extra data], where Python
    goes on with the line, the column and the character; the text of a
    diagnostic in a run below is abridged in that way. *)

Module Json.

Definition is_ws (c : ascii) : bool :=
  match c with
  | " " | "009" | "010" | "013" => true
  | _ => false
  end%char.

Fixpoint skip_ws (s : string) : string :=
  match s with
  | String c s' => if is_ws c then skip_ws s' else s
  | EmptyString => s
  end.

Definition digit (c : ascii) : option Z :=
  let n := Z.of_nat (nat_of_ascii c) in
  if (48 <=? n) && (n <=? 57) then Some (n - 48) else None.

Fixpoint digits (acc : Z) (s : string) : Z * string :=
  match s with
  | String c s' =>
      match digit c with
      | Some d => digits (10 * acc + d) s'
      | None => (acc, s)
      end
  | EmptyString => (acc, s)
  end.

(** After the digits of an integer nothing may announce a fraction or an
    exponent. *)
Definition ends_number (s : string) : bool :=
  match s with
  | String c _ =>
      match c with
      | "." | "e" | "E" => false
      | _ => match digit c with Some _ => false | None => true end
      end%char
  | EmptyString => true
  end.

Definition natural (s : string) : option (Z * string) :=
  match s with
  | String c s' =>
      match digit c with
      | Some 0 => if ends_number s' then Some (0, s') else None
      | Some d => let '(n, rest) := digits d s' in
                  if ends_number rest then Some (n, rest) else None
      | None => None
      end
  | EmptyString => None
  end.

Definition unescape (c : ascii) : option ascii :=
  match c with
  | "034" => Some "034"
  | "\" => Some "\"
  | "/" => Some "/"
  | "b" => Some "008"
  | "f" => Some "012"
  | "n" => Some "010"
  | "r" => Some "013"
  | "t" => Some "009"
  | _ => None
  end%char.

(** The characters after an opening quote, up to the closing one. *)
Fixpoint chars (s : string) : option (string * string) :=
  match s with
  | EmptyString => None
  | String c s' =>
      if Ascii.eqb c "034"%char then Some (EmptyString, s')
      else if Ascii.eqb c "\"%char then
        match s' with
        | String e s'' =>
            match unescape e, chars s'' with
            | Some c', Some (t, rest) => Some (String c' t, rest)
            | _, _ => None
            end
        | EmptyString => None
        end
      else if (Z.of_nat (nat_of_ascii c) <? 32) then None
      else match chars s' with
           | Some (t, rest) => Some (String c t, rest)
           | None => None
           end
  end.

(** A repeated key keeps its place and takes the last value. *)
Fixpoint put (k : string) (v : value) (kvs : list (string * value))
  : list (string * value) :=
  match kvs with
  | [] => [(k, v)]
  | (k', v') :: rest =>
      if String.eqb k k' then (k', v) :: rest else (k', v') :: put k v rest
  end.

Definition keyword (w : string) (v : value) (s : string)
  : option (value * string) :=
  if str_prefix w s
  then Some (v, String.substring (String.length w)
                  (String.length s - String.length w) s)
  else None.

Fixpoint document (fuel : nat) (s : string) : option (value * string) :=
  match fuel with
  | O => None
  | S fuel' =>
      match skip_ws s with
      | String "{" s' =>
          match skip_ws s' with
          | String "}" rest => Some (VDict [], rest)
          | s'' => members fuel' [] s''
          end
      | String "[" s' =>
          match skip_ws s' with
          | String "]" rest => Some (VList [], rest)
          | s'' => elements fuel' [] s''
          end
      | String "034" s' =>
          match chars s' with
          | Some (t, rest) => Some (VStr t, rest)
          | None => None
          end
      | String "-" s' =>
          match natural s' with
          | Some (n, rest) => Some (VInt (- n), rest)
          | None => None
          end
      | String "t" _ as w => keyword "true" (VBool true) w
      | String "f" _ as w => keyword "false" (VBool false) w
      | String "n" _ as w => keyword "null" VNone w
      | w =>
          match natural w with
          | Some (n, rest) => Some (VInt n, rest)
          | None => None
          end
      end
  end%char
with members (fuel : nat) (acc : list (string * value)) (s : string)
  : option (value * string) :=
  match fuel with
  | O => None
  | S fuel' =>
      match skip_ws s with
      | String "034" s' =>
          match chars s' with
          | Some (k, rest) =>
              match skip_ws rest with
              | String ":" rest' =>
                  match document fuel' rest' with
                  | Some (v, rest'') =>
                      match skip_ws rest'' with
                      | String "," more => members fuel' (put k v acc) more
                      | String "}" after => Some (VDict (put k v acc), after)
                      | _ => None
                      end
                  | None => None
                  end
              | _ => None
              end
          | None => None
          end
      | _ => None
      end
  end%char
with elements (fuel : nat) (acc : list value) (s : string)
  : option (value * string) :=
  match fuel with
  | O => None
  | S fuel' =>
      match document fuel' s with
      | Some (v, rest) =>
          match skip_ws rest with
          | String "," more => elements fuel' (acc ++ [v]) more
          | String "]" after => Some (VList (acc ++ [v]), after)
          | _ => None
          end
      | None => None
      end
  end%char.

(** The text of a line, written with an apostrophe for each double
    quote. *)
Fixpoint dq (s : string) : string :=
  match s with
  | EmptyString => EmptyString
  | String c s' =>
      String (if Ascii.eqb c "'"%char then "034"%char else c) (dq s')
  end.

(** The whole line must be one document. *)
Definition loads (s : string) : value + string :=
  match document (S (String.length s)) s with
  | Some (v, rest) =>
      match skip_ws rest with
      | EmptyString => inl v
      | _ => inr "Extra data"
      end
  | None => inr "Expecting value"
  end.

End Json.

(** ** The scenario of the specification *)

Module Scenario.

Definition comment_1 : string :=
  Json.dq "{'link_id':'t3_A','parent_id':'t3_A','body':'hello','score':5}".
Definition comment_2 : string :=
  Json.dq "{'link_id':'t3_A','parent_id':'t3_A','body':'[deleted]','score':9}".
Definition post_1 : string :=
  Json.dq "{'name':'t3_A','title':'T','selftext':'C','score':10}".

(** The documents these lines stand for. *)
Definition comment_1_doc : value :=
  VDict [("link_id", VStr "t3_A"); ("parent_id", VStr "t3_A");
         ("body", VStr "hello"); ("score", VInt 5)].
Definition comment_2_doc : value :=
  VDict [("link_id", VStr "t3_A"); ("parent_id", VStr "t3_A");
         ("body", VStr "[deleted]"); ("score", VInt 9)].
Definition post_1_doc : value :=
  VDict [("name", VStr "t3_A"); ("title", VStr "T");
         ("selftext", VStr "C"); ("score", VInt 10)].

End Scenario.

(** ** Concrete files *)

Module Demo.

Definition comments : list string :=
  [ Json.dq "{'link_id':'t3_A','parent_id':'t3_A','body':'first','score':3}";
    Json.dq "{'link_id':'t3_A','parent_id':'t3_A','body':'[deleted]','score':9}";
    Json.dq "{'link_id':'t3_B','parent_id':'t1_x','body':'a reply','score':4}";
    "not json";
    Json.dq "{'link_id':'t3_A','parent_id':'t3_A','body':'second','score':7}";
    Json.dq "{'link_id':'t3_B','parent_id':'t3_B','body':'other','score':0}";
    Json.dq "{'link_id':'t3_A','parent_id':'t3_A','body':'third','score':7}" ].

Definition posts : list string :=
  [ Json.dq "{'name':'t3_A','title':'T','selftext':'C','score':10}";
    Json.dq "{'name':'t3_B','title':'U','selftext':'D','score':10}" ].

Definition fs : filesystem :=
  fun path =>
    if String.eqb path "demo_comments" then Some comments
    else if String.eqb path "demo_submissions" then Some posts
    else None.

Definition first : comment := Comment (VStr "first") (VInt 3).
Definition second : comment := Comment (VStr "second") (VInt 7).
Definition third : comment := Comment (VStr "third") (VInt 7).
Definition other : comment := Comment (VStr "other") (VInt 0).

Definition A : key := KStr "t3_A".
Definition B : key := KStr "t3_B".

(** The index after the grouper has run over [comments]. *)
Definition idx : gmap key (list comment) :=
  load_comments (process_comments_in_chunks Json.loads fs "demo_comments" 2).1.

(** A comment without a body after an eligible one, and a post whose
    title is [null]. *)
Definition faulty_fs : filesystem :=
  fun path =>
    if String.eqb path "demo_comments" then
      Some [ Json.dq "{'link_id':'t3_A','parent_id':'t3_A','body':'hello','score':5}";
             Json.dq "{'link_id':'t3_B','parent_id':'t3_B'}" ]
    else if String.eqb path "numeric_body" then
      Some [ Json.dq "{'link_id':'t3_A','parent_id':'t3_A','body':5}" ]
    else if String.eqb path "null_title" then
      Some [ Json.dq "{'name':'t3_A','title':null,'selftext':'C','score':10}" ]
    else None.

End Demo.

(** ** What the runs print, line by line *)

(** What a run of the loop prints and how it ends, read off the lines
    alone: one diagnostic per line that is not JSON, until a line
    raises. *)
Fixpoint diagnostics (loads : string → value + string) (lines : list string)
  : list effect * option exn :=
  match lines with
  | [] => ([], None)
  | line :: rest =>
      match verdict_of loads line with
      | Faulty e => ([], Some e)
      | Malformed msg =>
          (Printed ("Error decoding JSON in comments file: " +:+ msg)
             :: (diagnostics loads rest).1,
           (diagnostics loads rest).2)
      | _ => diagnostics loads rest
      end
  end.

(** What a line makes the generator yield when the threshold is 0 or
    less: its comment alone, or an empty batch when the comment is
    dropped for a marker. *)
Definition immediate (v : verdict) : list (key * list comment) :=
  match v with
  | Tombstone k => [(k, [])]
  | Eligible k c => [(k, [c])]
  | _ => []
  end.

(** The lines printed among the effects of a run. *)
Definition prints_of (effs : list effect) : list string :=
  flat_map (fun eff =>
              match eff with
              | Printed msg => [msg]
              | Written _ => []
              end) effs.

(** ** The directory scan *)

(** [s.endswith(suffix)]. *)
Fixpoint str_suffix (suffix s : string) : bool :=
  String.eqb suffix s ||
  match s with
  | EmptyString => false
  | String _ s' => str_suffix suffix s'
  end.

(** [s.split('_')[0]]: the text before the first underscore. *)
Fixpoint before_underscore (s : string) : string :=
  match s with
  | EmptyString => EmptyString
  | String c s' =>
      if Ascii.eqb c "_"%char then EmptyString
      else String c (before_underscore s')
  end.

(** The directory that is scanned: what [os.listdir] gives for it, in its
    order, and the files behind the paths.  Its entries are plain
    files. *)
Record world : Type := World {
  listing : list string;
  files : filesystem
}.

(** What [process_files_in_directory] can let escape: the use of
    [comments_generator] before any comments file has bound it, a file
    that [os.remove] does not find, and whatever escapes the joiner. *)
Inductive run_exn : Type :=
| UnboundLocalError
| FileNotFoundError
| Escaped (e : exn).

(** A generator object: not started yet, or exhausted. *)
Inductive generator : Type :=
| Fresh (comments_filepath : string)
| Spent.

Section Directory.

Variable loads : string -> value + string.

(** [os.path.join], of the Python library. *)
Variable path_join : string -> string -> string.

(** What the joiner gets out of the generator it is handed: the run of
    [process_comments_in_chunks] with its default batch size when the
    generator has not been started, nothing when it has been exhausted
    by an earlier call. *)
Definition drain (fs : filesystem) (g : generator) : list event * option exn :=
  match g with
  | Fresh comments_filepath =>
      process_comments_in_chunks loads fs comments_filepath default_batch_size
  | Spent => ([], None)
  end.

(** The first loop of [process_files_in_directory], lines 109 to 116;
    [comments_generator] is [None] while the variable is unbound. *)
Fixpoint dispatch (fs : filesystem) (directory_path : string) (min_score : Z)
    (comments_generator : option generator) (names : list string)
  : list effect * option run_exn :=
  match names with
  | [] => ([], None)
  | filename :: rest =>
      if str_suffix "_comments" filename then
        let comments_filepath := path_join directory_path filename in
        dispatch fs directory_path min_score (Some (Fresh comments_filepath))
          rest
      else if str_suffix "_submissions" filename then
        let posts_filepath := path_join directory_path filename in
        let subreddit_name := before_underscore filename in
        match comments_generator with
        | None => ([], Some UnboundLocalError)
        | Some g =>
            let '(effs, r) :=
              match_posts_with_top_comments loads fs posts_filepath
                (drain fs g) subreddit_name min_score in
            match r with
            | Some e => (effs, Some (Escaped e))
            | None =>
                let '(effs', r') :=
                  dispatch fs directory_path min_score (Some Spent) rest in
                (effs ++ effs', r')
            end
        end
      else dispatch fs directory_path min_score comments_generator rest
  end.

(** [os.remove(os.path.join(directory_path, filename))] on a file that
    is there. *)
Definition os_remove (directory_path filename : string) (w : world) : world :=
  World (filter (fun name => name <> filename) (listing w))
        (fun path =>
           if String.eqb path (path_join directory_path filename) then None
           else files w path).

(** The second loop, lines 118 to 121, over the names listed when it
    starts. *)
Fixpoint cleanup (directory_path : string) (names : list string) (w : world)
  : list effect * world * option run_exn :=
  match names with
  | [] => ([], w, None)
  | filename :: rest =>
      if str_suffix ".csv" filename then cleanup directory_path rest w
      else
        match files w (path_join directory_path filename) with
        | None => ([], w, Some FileNotFoundError)
        | Some _ =>
            let '(effs, w', r) :=
              cleanup directory_path rest (os_remove directory_path filename w)
            in (Printed ("Deleted unnecessary file: " +:+ filename) :: effs,
                w', r)
        end
  end.

(** [process_files_in_directory]; the rows go to the writer as
    [Written] effects, and [output_directory] is not used. *)
Definition process_files_in_directory (w : world)
    (directory_path output_directory : string) (min_score : Z)
  : list effect * world * option run_exn :=
  let '(effs, r) :=
    dispatch (files w) directory_path min_score None (listing w) in
  match r with
  | Some e => (effs, w, Some e)
  | None =>
      let '(effs', w', r') := cleanup directory_path (listing w) w in
      (effs ++ effs', w', r')
  end.

End Directory.

(** A name that neither branch of the first loop takes. *)
Definition passed_over (filename : string) : Prop :=
  str_suffix "_comments" filename = false ∧
  str_suffix "_submissions" filename = false.

(** ** Names of the files *)

(** [s.replace(old, '')] for a non-empty [old]: the occurrences of [old]
    found from the left, none overlapping another, are dropped; [skip]
    counts the characters of an occurrence still to drop. *)
Fixpoint remove_from (old : string) (skip : nat) (s : string) : string :=
  match s with
  | EmptyString => EmptyString
  | String c s' =>
      match skip with
      | S n => remove_from old n s'
      | O =>
          if str_prefix old s
          then remove_from old (String.length old - 1) s'
          else String c (remove_from old 0 s')
      end
  end.

(** Line 26 of [decompress_file]: the name of the file that receives the
    decompressed stream, [basename.replace('.zst', '')]. *)
Definition decompressed_name (basename : string) : string :=
  remove_from ".zst" 0 basename.

Section Decompress.

(** [os.path.join] and [os.path.basename], of the Python library. *)
Variable path_join : string -> string -> string.
Variable basename : string -> string.

(** Line 26 of [decompress_file] as it is written: the path of the
    file that receives the decompressed stream. *)
Definition output_filepath (zst_filepath output_dir : string) : string :=
  path_join output_dir (decompressed_name (basename zst_filepath)).

End Decompress.

(** The names [main] gives to what it downloads for a subreddit, lines
    147 and 148. *)
Definition submissions_archive (subreddit_name : string) : string :=
  subreddit_name +:+ "_submissions.zst".
Definition comments_archive (subreddit_name : string) : string :=
  subreddit_name +:+ "_comments.zst".

(** ** The download *)

(** The bytes of the files, by path. *)
Definition disk : Type := string -> option string.

Definition disk_write (path content : string) (d : disk) : disk :=
  fun p => if String.eqb p path then Some content else d p.

(** What [requests.get] returned, for a body that is received whole: the
    status, the content-length header when there is one, and the chunks
    that [iter_content] gives. *)
Record response : Type := Response {
  status_code : Z;
  content_length : option string;
  iter_content : list string
}.

(** What [download_file] shows: the progress bar it opens with a total,
    each advance of the bar, and the line it prints. *)
Inductive shown : Type :=
| Bar (total : Z)
| Advance (n : nat)
| Say (msg : string).

(** [str(n)] for an int. *)
Definition py_str (n : Z) : string := NilZero.string_of_int (Z.to_int n).

Section Download.

(** [int(s)] of the Python library; [None] stands for its
    [ValueError]. *)
Variable py_int : string -> option Z.

(** The loop of lines 16 to 18: each chunk is appended to the file and
    advances the bar by its length. *)
Fixpoint write_chunks (written : string) (chunks : list string)
  : string * list shown :=
  match chunks with
  | [] => (written, [])
  | data :: rest =>
      let '(content, bar) := write_chunks (written +:+ data) rest in
      (content, Advance (String.length data) :: bar)
  end.

(** [download_file]: the disk afterwards, what is shown, and whether
    [int] raised its [ValueError] (the file is by then open, and
    empty). *)
Definition download_file (d : disk) (r : response) (url output_path : string)
  : disk * list shown * bool :=
  if status_code r =? 200 then
    let opened := disk_write output_path EmptyString d in
    match match content_length r with
          | None => Some 0
          | Some header => py_int header
          end with
    | None => (opened, [], true)
    | Some total_size =>
        let '(content, bar) := write_chunks EmptyString (iter_content r) in
        (disk_write output_path content opened,
         Bar total_size :: bar ++ [Say ("Downloaded: " +:+ output_path)],
         false)
    end
  else
    (d, [Say ("Failed to download " +:+ url +:+ ": "
               +:+ py_str (status_code r))], false).

End Download.

(** ** The names typed in *)

(** Lowering of the ASCII letters.  [s.lower() == 'done'] holds exactly
    when this lowering of [s] is [done]: no other character has a letter
    of [done] in its lower case. *)
Definition ascii_lower (c : ascii) : ascii :=
  let n := nat_of_ascii c in
  if (65 <=? n)%nat && (n <=? 90)%nat then ascii_of_nat (n + 32) else c.

Fixpoint lower (s : string) : string :=
  match s with
  | EmptyString => EmptyString
  | String c s' => String (ascii_lower c) (lower s')
  end.

(** The loop of lines 137 to 141 of [main] over the lines that [input]
    returns: the names before the first [done], and the lines not yet
    read; [None] when the lines run out first ([input] raises
    [EOFError]). *)
Fixpoint read_subreddits (inputs : list string)
  : option (list string * list string) :=
  match inputs with
  | [] => None
  | subreddit_name :: rest =>
      if String.eqb (lower subreddit_name) "done" then Some ([], rest)
      else
        match read_subreddits rest with
        | Some (subreddits, unread) =>
            Some (subreddit_name :: subreddits, unread)
        | None => None
        end
  end.

(** The advances of the bar, added up. *)
Definition advanced (l : list shown) : nat :=
  foldr (λ s n, match s with Advance k => (k + n)%nat | _ => n end) 0%nat l.

(** ** A concrete directory *)

Module Folder.

(** [os.path.join] on a directory and a name without separators. *)
Definition path_join (directory filename : string) : string :=
  directory +:+ "/" +:+ filename.

(** The files of [out]: the two archives, what they decompress to, and
    the file the rows go to. *)
Definition files : filesystem :=
  fun path =>
    if String.eqb path "out/demo_comments" then Some Demo.comments
    else if String.eqb path "out/demo_submissions" then Some Demo.posts
    else if String.eqb path "out/demo_comments.zst" then Some ["(archive)"]
    else if String.eqb path "out/demo_submissions.zst" then Some ["(archive)"]
    else if String.eqb path "out/merged_data.csv" then Some []
    else None.

(** The directory listed in the order of the names, and in an order that
    puts the submissions first. *)
Definition sorted : world :=
  World ["demo_comments"; "demo_comments.zst"; "demo_submissions";
         "demo_submissions.zst"; "merged_data.csv"] files.

Definition unlucky : world :=
  World ["merged_data.csv"; "demo_submissions"; "demo_comments"] files.

(** [int] on a string of decimal digits. *)
Definition py_int (s : string) : option Z :=
  match s with
  | EmptyString => None
  | _ => match Json.digits 0 s with
         | (n, EmptyString) => Some n
         | _ => None
         end
  end.

(** [os.path.basename] where the separator is the slash: what follows
    the last one. *)
Fixpoint basename (path : string) : string :=
  match path with
  | EmptyString => EmptyString
  | String c rest =>
      if str_contains "/" rest then basename rest
      else if Ascii.eqb c "/"%char then rest
      else path
  end.

(** A disk with what is left of an earlier download. *)
Definition stale : disk :=
  fun path =>
    if String.eqb path "out/demo_comments.zst" then Some "partial" else None.

(** An answer of 11 bytes in two chunks. *)
Definition answer : response :=
  Response 200 (Some "11") ["hello "; "world"].

End Folder.

(** * Properties *)

(** ** The grouper's dict *)

Section DictFacts.

Implicit Types (k : key) (b : list comment) (d : ddict) (c : comment).

Lemma dd_lookup_set_eq k b d : dd_lookup k (dd_set k b d) = Some b.
Proof.
  induction d as [|[k' b'] d IH]; simpl.
  - by rewrite decide_True.
  - destruct (decide (k = k')) as [->|Hne]; simpl.
    + by rewrite decide_True.
    + by rewrite decide_False.
Qed.

Lemma dd_lookup_set_ne k k' b d :
  k ≠ k' → dd_lookup k' (dd_set k b d) = dd_lookup k' d.
Proof.
  intros Hne. induction d as [|[k0 b0] d IH]; simpl.
  - by rewrite decide_False.
  - destruct (decide (k = k0)) as [->|Hne0]; simpl.
    + by rewrite !(decide_False (P := k' = k0)).
    + by rewrite IH.
Qed.

Lemma bucket_of_set k k' b d :
  bucket_of k' (dd_set k b d) = if decide (k = k') then b else bucket_of k' d.
Proof.
  unfold bucket_of. destruct (decide (k = k')) as [->|Hne].
  - by rewrite dd_lookup_set_eq.
  - by rewrite dd_lookup_set_ne.
Qed.

Lemma dd_getitem_fst k d : (dd_getitem k d).1 = bucket_of k d.
Proof. unfold dd_getitem, bucket_of. by destruct (dd_lookup k d). Qed.

Lemma dd_getitem_bucket k k' d :
  bucket_of k' (dd_getitem k d).2 = bucket_of k' d.
Proof.
  unfold dd_getitem. destruct (dd_lookup k d) eqn:Hk; simpl; [done|].
  rewrite bucket_of_set. case_decide; [subst|done].
  unfold bucket_of. by rewrite Hk.
Qed.

Lemma dd_append_bucket k k' c d :
  bucket_of k' (dd_append k c d)
  = bucket_of k' d ++ (if decide (k = k') then [c] else []).
Proof.
  unfold dd_append.
  pose proof (dd_getitem_fst k d) as Hf.
  pose proof (dd_getitem_bucket k k' d) as Hb.
  destruct (dd_getitem k d) as [b d1]; simpl in *.
  rewrite bucket_of_set. case_decide; subst.
  - done.
  - by rewrite Hb, app_nil_r.
Qed.

Lemma dd_set_keys k b d :
  (dd_set k b d).*1 = if decide (k ∈ d.*1) then d.*1 else d.*1 ++ [k].
Proof.
  induction d as [|[k' b'] d IH].
  - destruct (decide (k ∈ ([] : ddict).*1)) as [H|H]; [|done].
    by apply elem_of_nil in H.
  - cbn [dd_set]. destruct (decide (k = k')) as [->|Hne].
    + rewrite decide_True; [done|]. apply list_elem_of_here.
    + rewrite fmap_cons, IH. cbn [fst].
      destruct (decide (k ∈ d.*1)) as [Hin|Hnin].
      * rewrite decide_True; [done|]. by apply list_elem_of_further.
      * rewrite decide_False; [done|].
        intros Hin. apply elem_of_cons in Hin as [?|?]; done.
Qed.

Lemma dd_set_wf k b d : wf d → wf (dd_set k b d).
Proof.
  unfold wf. intros Hd. rewrite dd_set_keys. case_decide; [done|].
  apply NoDup_app. split_and!; [done| |apply NoDup_singleton].
  intros x Hx Hx'. apply list_elem_of_singleton in Hx'. by subst.
Qed.

Lemma dd_getitem_wf k d : wf d → wf (dd_getitem k d).2.
Proof.
  unfold dd_getitem. destruct (dd_lookup k d); simpl; [done|].
  apply dd_set_wf.
Qed.

Lemma dd_append_wf k c d : wf d → wf (dd_append k c d).
Proof.
  unfold dd_append. intros Hd. pose proof (dd_getitem_wf k d Hd).
  destruct (dd_getitem k d). by apply dd_set_wf.
Qed.

Lemma dd_lookup_elem k b d : dd_lookup k d = Some b → (k, b) ∈ d.
Proof.
  induction d as [|[k' b'] d IH]; simpl; [done|].
  case_decide; subst.
  - intros [= ->]. apply list_elem_of_here.
  - intros H'. apply list_elem_of_further. by apply IH.
Qed.

Lemma dd_elem_lookup k b d : wf d → (k, b) ∈ d → dd_lookup k d = Some b.
Proof.
  unfold wf. induction d as [|[k' b'] d IH].
  - intros _ Hin. by apply elem_of_nil in Hin.
  - rewrite fmap_cons. cbn [fst dd_lookup]. intros Hnd Hin.
    apply NoDup_cons in Hnd as [Hk' Hnd].
    apply elem_of_cons in Hin as [[= <- <-]|Hin].
    + by rewrite decide_True.
    + rewrite decide_False; [by apply IH|].
      intros ->. apply Hk'. apply list_elem_of_fmap. by exists (k', b).
Qed.

(** At the end of the stream each key gives up what its bucket holds. *)
Lemma final_flush_yielded k d : wf d → yielded_for k (final_flush d) = bucket_of k d.
Proof.
  unfold wf, bucket_of. induction d as [|[k' b'] d IH].
  - done.
  - rewrite fmap_cons. cbn [fst]. intros [Hk' Hnd]%NoDup_cons.
    cbn [final_flush flat_map dd_lookup]. unfold yielded_for.
    rewrite flat_map_app. fold (final_flush d). fold (yielded_for k (final_flush d)).
    rewrite IH by done. cbn [fst snd].
    destruct (decide (k = k')) as [->|Hne].
    + assert (dd_lookup k' d = None) as ->.
      { destruct (dd_lookup k' d) eqn:E; [|done].
        exfalso. apply Hk'. apply list_elem_of_fmap.
        eexists (k', _). split; [done|]. by apply dd_lookup_elem. }
      destruct b'; simpl; [done|]. rewrite decide_True by done. by rewrite !app_nil_r.
    + destruct b'; simpl; [done|]. by rewrite decide_False.
Qed.

Lemma final_flush_batches k b d :
  (k, b) ∈ batches (final_flush d) → b ≠ [] ∧ (k, b) ∈ d.
Proof.
  induction d as [|[k' b'] d IH].
  - intros H. by apply elem_of_nil in H.
  - cbn [final_flush flat_map]. unfold batches. rewrite flat_map_app.
    fold (final_flush d). fold (batches (final_flush d)). cbn [fst snd].
    intros [H|H]%elem_of_app.
    + destruct b'; simpl in H; [by apply elem_of_nil in H|].
      apply list_elem_of_singleton in H as [= -> ->].
      split; [done|]. apply list_elem_of_here.
    + destruct (IH H) as [? ?]. split; [done|]. by apply list_elem_of_further.
Qed.

End DictFacts.

(** ** The grouper *)

Section GrouperFacts.

Variable loads : string → value + string.

Implicit Types (B : Z) (v : verdict) (evs : list event) (line : string).

(** The loop body does what the verdict on its line says. *)
Lemma grouper_step_verdict B d line :
  grouper_step loads B d line = apply_verdict B d (verdict_of loads line).
Proof.
  unfold grouper_step, verdict_of. destruct (loads line) as [comment|msg]; [|done].
  destruct comment as [| | | | |kvs]; try done. cbn [py_get bind].
  destruct (truthy _ && truthy _); cbn [bind py_get apply_verdict]; [|done].
  destruct (py_startswith _ _) as [[|]|e]; cbn [bind py_get apply_verdict]; try done.
  destruct (py_contains "[deleted]" _) as [[|]|e];
    cbn [bind negb py_get apply_verdict]; try done.
  - destruct (py_hash _) as [k|e]; cbn [bind py_get apply_verdict]; [|done].
    unfold flush_check. destruct (dd_getitem k d); by destruct (_ >=? _).
  - destruct (py_contains "[removed]" _) as [[|]|e];
      cbn [bind negb py_get apply_verdict]; try done.
    + destruct (py_hash _) as [k|e]; cbn [bind py_get apply_verdict]; [|done].
      unfold flush_check. destruct (dd_getitem k d); by destruct (_ >=? _).
    + destruct (py_hash _) as [k|e]; cbn [bind py_get apply_verdict]; [|done].
      unfold flush_check. destruct (dd_getitem k _); by destruct (_ >=? _).
Qed.

Lemma yielded_for_app k evs evs' :
  yielded_for k (evs ++ evs') = yielded_for k evs ++ yielded_for k evs'.
Proof. apply flat_map_app. Qed.

Lemma batches_app evs evs' : batches (evs ++ evs') = batches evs ++ batches evs'.
Proof. apply flat_map_app. Qed.

Lemma flush_check_conserve B k d k0 :
  yielded_for k0 (flush_check B k d).2 ++ bucket_of k0 (flush_check B k d).1
  = bucket_of k0 d.
Proof.
  unfold flush_check.
  pose proof (dd_getitem_fst k d) as Hf.
  pose proof (dd_getitem_bucket k k0 d) as Hb.
  destruct (dd_getitem k d) as [bucket d2]; simpl in *.
  destruct (_ >=? _); simpl.
  - rewrite bucket_of_set, app_nil_r.
    destruct (decide (k = k0)) as [->|Hne].
    + by rewrite decide_True, app_nil_r.
    + by rewrite decide_False.
  - done.
Qed.

Lemma flush_check_wf B k d : wf d → wf (flush_check B k d).1.
Proof.
  unfold flush_check. intros Hd. pose proof (dd_getitem_wf k d Hd).
  destruct (dd_getitem k d) as [bucket d2]; simpl in *.
  destruct (_ >=? _); simpl; [by apply dd_set_wf|done].
Qed.

Lemma flush_check_batches B k d k0 b0 :
  (k0, b0) ∈ batches (flush_check B k d).2 →
  k0 = k ∧ b0 = bucket_of k d ∧ B ≤ Z.of_nat (length b0).
Proof.
  unfold flush_check. pose proof (dd_getitem_fst k d) as Hf.
  destruct (dd_getitem k d) as [bucket d2]; simpl in *.
  destruct (Z.geb_spec (Z.of_nat (length bucket)) B); simpl.
  - intros [= -> ->]%list_elem_of_singleton. split_and!; [done|done|lia].
  - intros H'. by apply elem_of_nil in H'.
Qed.

Lemma flush_check_small B k d :
  1 ≤ B →
  (∀ k0, k0 ≠ k → Z.of_nat (length (bucket_of k0 d)) < B) →
  small B (flush_check B k d).1.
Proof.
  intros HB Hd k0. unfold flush_check.
  pose proof (dd_getitem_fst k d) as Hf.
  pose proof (dd_getitem_bucket k k0 d) as Hb.
  destruct (dd_getitem k d) as [bucket d2]; simpl in *.
  destruct (Z.geb_spec (Z.of_nat (length bucket)) B); simpl.
  - rewrite bucket_of_set. case_decide; subst; simpl; [lia|].
    rewrite Hb. apply Hd. congruence.
  - rewrite Hb. destruct (decide (k0 = k)) as [->|Hne]; [|by apply Hd].
    rewrite <- Hf. lia.
Qed.

Lemma apply_verdict_conserve B d v p k :
  apply_verdict B d v = Ok p →
  yielded_for k p.2 ++ bucket_of k p.1 = bucket_of k d ++ entry k v.
Proof.
  destruct v as [msg| |k0|k0 c|e]; simpl; intros [= <-]; simpl;
    rewrite ?app_nil_r; try done.
  - apply flush_check_conserve.
  - rewrite flush_check_conserve, dd_append_bucket.
    f_equal. by destruct (decide (k0 = k)); subst;
      [rewrite decide_True|rewrite decide_False].
Qed.

Lemma apply_verdict_wf B d v p :
  apply_verdict B d v = Ok p → wf d → wf p.1.
Proof.
  destruct v as [msg| |k0|k0 c|e]; simpl; intros [= <-]; try done.
  - apply flush_check_wf.
  - intros Hd. by apply flush_check_wf, dd_append_wf.
Qed.

Lemma apply_verdict_small B d v p :
  1 ≤ B → small B d → apply_verdict B d v = Ok p → small B p.1.
Proof.
  intros HB Hd.
  destruct v as [msg| |k0|k0 c|e]; simpl; intros [= <-]; try done.
  - apply flush_check_small; [done|]. intros; apply Hd.
  - apply flush_check_small; [done|]. intros k1 Hne.
    rewrite dd_append_bucket, decide_False, app_nil_r by done. apply Hd.
Qed.

(** Below the threshold a batch leaves only on the line that fills it,
    and it holds exactly [B] comments. *)
Lemma apply_verdict_batches B d v p k b :
  1 ≤ B → small B d → apply_verdict B d v = Ok p →
  (k, b) ∈ batches p.2 →
  Z.of_nat (length b) = B ∧ ∃ c, v = Eligible k c.
Proof.
  intros HB Hd.
  destruct v as [msg| |k0|k0 c|e]; simpl; intros [= <-]; simpl;
    try (intros H; by apply elem_of_nil in H).
  - intros (-> & -> & Hlen)%flush_check_batches. specialize (Hd k0). lia.
  - intros (-> & -> & Hlen)%flush_check_batches. split; [|by eexists].
    revert Hlen. rewrite dd_append_bucket, decide_True by done.
    rewrite length_app. specialize (Hd k0). simpl. lia.
Qed.

Lemma grouper_loop_cons B d line lines :
  grouper_loop loads B d (line :: lines)
  = match apply_verdict B d (verdict_of loads line) with
    | Raise e => ([], Raise e)
    | Ok (d', evs) =>
        ((evs ++ (grouper_loop loads B d' lines).1),
         (grouper_loop loads B d' lines).2)
    end.
Proof.
  cbn [grouper_loop]. rewrite grouper_step_verdict.
  destruct (apply_verdict _ _ _) as [[d' evs]|e]; [|done].
  by destruct (grouper_loop loads B d' lines).
Qed.

(** What has been yielded for a key, followed by what its bucket still
    holds, is what has been appended for it.  When the generator dies,
    what it yielded is still the beginning of that list. *)
Lemma grouper_loop_conserve B k lines : ∀ d,
  ∃ rest,
    yielded_for k (grouper_loop loads B d lines).1 ++ rest
    = bucket_of k d ++ eligible_for loads k lines ∧
    ∀ d', (grouper_loop loads B d lines).2 = Ok d' → rest = bucket_of k d'.
Proof.
  induction lines as [|line lines IH]; intros d.
  - exists (bucket_of k d). simpl. split; [by rewrite app_nil_r|].
    by intros d' [= <-].
  - rewrite grouper_loop_cons. cbn [eligible_for flat_map].
    fold (eligible_for loads k lines).
    destruct (apply_verdict B d _) as [[d1 evs]|e] eqn:Hstep; simpl.
    + destruct (IH d1) as (rest & Heq & Hrest). exists rest. split; [|done].
      rewrite yielded_for_app, <- app_assoc, Heq, !app_assoc. f_equal.
      apply (apply_verdict_conserve _ _ _ _ k Hstep).
    + eexists. split; [done|]. by intros d'.
Qed.

Lemma grouper_loop_wf B lines : ∀ d d',
  wf d → (grouper_loop loads B d lines).2 = Ok d' → wf d'.
Proof.
  induction lines as [|line lines IH]; intros d d' Hd.
  - by intros [= <-].
  - rewrite grouper_loop_cons.
    destruct (apply_verdict B d _) as [[d1 evs]|e] eqn:Hstep; simpl; [|done].
    apply IH. apply (apply_verdict_wf _ _ _ _ Hstep Hd).
Qed.

Lemma grouper_loop_small B lines : ∀ d d',
  1 ≤ B → small B d → (grouper_loop loads B d lines).2 = Ok d' → small B d'.
Proof.
  induction lines as [|line lines IH]; intros d d' HB Hd.
  - by intros [= <-].
  - rewrite grouper_loop_cons.
    destruct (apply_verdict B d _) as [[d1 evs]|e] eqn:Hstep; simpl; [|done].
    apply IH; [done|]. apply (apply_verdict_small _ _ _ _ HB Hd Hstep).
Qed.

Lemma grouper_loop_batches B lines : ∀ d k b,
  1 ≤ B → small B d →
  (k, b) ∈ batches (grouper_loop loads B d lines).1 →
  Z.of_nat (length b) = B.
Proof.
  induction lines as [|line lines IH]; intros d k b HB Hd.
  - intros H. by apply elem_of_nil in H.
  - rewrite grouper_loop_cons.
    destruct (apply_verdict B d _) as [[d1 evs]|e] eqn:Hstep; simpl.
    + rewrite batches_app. intros [H|H]%elem_of_app.
      * by destruct (apply_verdict_batches _ _ _ _ _ _ HB Hd Hstep H).
      * eapply IH; [done| |done]. apply (apply_verdict_small _ _ _ _ HB Hd Hstep).
    + intros H. by apply elem_of_nil in H.
Qed.

Lemma small_nil B : 1 ≤ B → small B [].
Proof. intros HB k. simpl. lia. Qed.

Lemma wf_nil : wf [].
Proof. apply NoDup_nil_2. Qed.

End GrouperFacts.

(** ** Which records are kept *)

Section VerdictFacts.

Variable loads : string → value + string.

Lemma verdict_eligible line k c :
  verdict_of loads line = Eligible k c ↔
  ∃ comment, loads line = inl comment ∧ eligible comment k c.
Proof.
  unfold verdict_of, eligible. split.
  - destruct (loads line) as [comment|msg]; [|done].
    destruct comment as [| | | | |kvs]; try done. cbn [py_get bind].
    set (li := match assoc "link_id" kvs with Some v => v | None => _ end).
    set (pi := match assoc "parent_id" kvs with Some v => v | None => _ end).
    set (bv := match assoc "body" kvs with Some v => v | None => _ end).
    set (sv := match assoc "score" kvs with Some v => v | None => _ end).
    destruct (truthy li) eqn:Hl; [|done].
    destruct (truthy pi) eqn:Hp; [|done]. cbn [andb].
    destruct (py_startswith pi _) as [[|]|e] eqn:Hs; cbn [bind]; try done.
    destruct (py_contains "[deleted]" bv) as [[|]|e] eqn:Hd; cbn [bind negb];
      try done.
    + destruct (py_hash li); cbn [bind]; done.
    + destruct (py_contains "[removed]" bv) as [[|]|e] eqn:Hr; cbn [bind negb];
        try done; destruct (py_hash li) as [k'|e] eqn:Hk; cbn [bind]; try done.
      intros [= -> <-]. eexists. split; [done|].
      exists li, pi. by repeat split.
  - intros (comment & -> & link_id & parent_id & Hl & Hp & Htl & Htp & Hs
            & Hb & Hd & Hr & Hk & Hsc).
    rewrite Hl, Hp. cbn [bind]. rewrite Htl, Htp, Hs. cbn [bind andb].
    rewrite Hb. cbn [bind]. rewrite Hd. cbn [bind negb]. rewrite Hr.
    cbn [bind negb]. rewrite Hk. cbn [bind]. rewrite Hsc. cbn [bind].
    by destruct c.
Qed.

Lemma py_contains_defined n n' (v : value) x :
  py_contains n v = Ok x → ∃ y, py_contains n' v = Ok y.
Proof. destruct v; simpl; intros; simplify_eq; eauto. Qed.

(** A record that must be left out adds nothing to any bucket. *)
Lemma excluded_entry line comment k :
  loads line = inl comment → excluded comment →
  entry k (verdict_of loads line) = [].
Proof.
  intros Hl Hex. destruct (verdict_of loads line) as [| | |k' c|] eqn:Hv; try done.
  apply verdict_eligible in Hv as (comment' & Hl' & link_id & parent_id & Hli
    & Hpi & Htl & Htp & Hs & Hb & Hd & Hr & Hk & Hsc).
  rewrite Hl in Hl'. injection Hl' as <-.
  exfalso. destruct Hex as [(body_v & Hb' & Hm)|[Hm|[Hm|(p & Hp' & Hm)]]].
  - rewrite Hb in Hb'. injection Hb' as <-. destruct Hm; congruence.
  - rewrite Hli in Hm. injection Hm as ->. done.
  - rewrite Hpi in Hm. injection Hm as ->. done.
  - rewrite Hpi in Hp'. injection Hp' as <-. done.
Qed.

End VerdictFacts.

(** ** The joiner *)

Section JoinerFacts.

Variable loads : string → value + string.

Implicit Types (idx : gmap key (list comment)) (evs : list event).

Lemma extend_lookup idx k k' b :
  default [] (extend idx k b !! k')
  = default [] (idx !! k') ++ (if decide (k' = k) then b else []).
Proof.
  unfold extend. destruct (decide (k' = k)) as [->|Hne].
  - by rewrite lookup_insert_eq.
  - by rewrite lookup_insert_ne, app_nil_r.
Qed.

Lemma load_comments_from idx evs k :
  default [] (foldl (λ idx ev, match ev with
                               | Yield k b => extend idx k b
                               | Print _ => idx
                               end) idx evs !! k)
  = default [] (idx !! k) ++ yielded_for k evs.
Proof.
  revert idx. induction evs as [|[k' b'|msg] evs IH]; intros idx; simpl.
  - by rewrite app_nil_r.
  - by rewrite IH, extend_lookup, app_assoc.
  - apply IH.
Qed.

(** The index holds, for each key, the batches yielded for it, one
    after the other. *)
Lemma load_comments_lookup evs k :
  default [] (load_comments evs !! k) = yielded_for k evs.
Proof. unfold load_comments. by rewrite load_comments_from, lookup_empty. Qed.

Lemma load_comments_keys_from idx evs k :
  is_Some (foldl (λ idx ev, match ev with
                            | Yield k b => extend idx k b
                            | Print _ => idx
                            end) idx evs !! k)
  ↔ is_Some (idx !! k) ∨ ∃ b, (k, b) ∈ batches evs.
Proof.
  revert idx. induction evs as [|[k' b'|msg] evs IH]; intros idx; simpl.
  - split; [by left|]. intros [?|[b H]]; [done|]. by apply elem_of_nil in H.
  - rewrite IH. unfold extend. split.
    + intros [H|[b H]].
      * destruct (decide (k' = k)) as [->|Hne].
        -- right. exists b'. apply list_elem_of_here.
        -- rewrite lookup_insert_ne in H by done. by left.
      * right. exists b. by apply list_elem_of_further.
    + intros [H|[b H]].
      * left. destruct (decide (k' = k)) as [->|Hne].
        -- by rewrite lookup_insert_eq.
        -- by rewrite lookup_insert_ne.
      * apply elem_of_cons in H as [[= -> ->]|H].
        -- left. by rewrite lookup_insert_eq.
        -- right. by exists b.
  - apply IH.
Qed.

Lemma load_comments_keys evs k :
  is_Some (load_comments evs !! k) ↔ ∃ b, (k, b) ∈ batches evs.
Proof.
  unfold load_comments. rewrite load_comments_keys_from, lookup_empty.
  split; [|by right]. intros [[? [=]]|?]; done.
Qed.

(** *** The maximum *)

Lemma py_gt_int (u v : value) x y :
  as_int u = Some x → as_int v = Some y → py_gt u v = Ok (y <? x).
Proof. destruct u, v; simpl; intros; simplify_eq; done. Qed.

Lemma py_gt_int_l (u v : value) r :
  py_gt u v = Ok r → is_Some (as_int u) → is_Some (as_int v).
Proof. destruct u, v; simpl; intros ? [? ?]; simplify_eq; eauto. Qed.

Lemma py_gt_int_r (u v : value) r :
  py_gt u v = Ok r → is_Some (as_int v) → is_Some (as_int u).
Proof. destruct u, v; simpl; intros ? [? ?]; simplify_eq; eauto. Qed.

Lemma max_from_first_max rest : ∀ best m,
  max_from best rest = Ok m → is_Some (as_int (score m)) →
  first_max (best :: rest) m.
Proof.
  induction rest as [|c rest IH]; intros best m; simpl.
  - intros [= ->] [z Hz]. exists [], [], z. split_and!; [done|done| |];
      intros c Hc; by apply elem_of_nil in Hc.
  - destruct (py_gt (score c) (score best)) as [g|e] eqn:Hgt; simpl; [|done].
    intros Hm Hnum.
    destruct (IH _ _ Hm Hnum) as (pre & post & z & Hl & Hz & Hpre & Hpost).
    assert (∀ c', c' ∈ pre ++ m :: post →
                  ∃ x, as_int (score c') = Some x ∧ x ≤ z) as Hall.
    { intros c' [H|H]%elem_of_app.
      - destruct (Hpre _ H) as (x & ? & ?). exists x. split; [done|lia].
      - apply elem_of_cons in H as [->|H]; [|by apply Hpost].
        exists z. split; [done|lia]. }
    destruct g.
    + (* [c] replaces [best] *)
      destruct (Hall c) as (x & Hx & Hxz).
      { rewrite <- Hl. apply list_elem_of_here. }
      destruct (py_gt_int_l _ _ _ Hgt) as [y Hy]; [by eexists|].
      rewrite (py_gt_int _ _ _ _ Hx Hy) in Hgt. injection Hgt as Hgt.
      apply Z.ltb_lt in Hgt.
      exists (best :: pre), post, z. split_and!; [by rewrite Hl|done| |done].
      intros c' [->|H]%elem_of_cons; [|by apply Hpre].
      exists y. split; [done|lia].
    + (* [best] stays *)
      destruct (Hall best) as (y & Hy & Hyz).
      { rewrite <- Hl. apply list_elem_of_here. }
      destruct (py_gt_int_r _ _ _ Hgt) as [x Hx]; [by eexists|].
      rewrite (py_gt_int _ _ _ _ Hx Hy) in Hgt. injection Hgt as Hgt.
      apply Z.ltb_ge in Hgt.
      destruct pre as [|p pre]; simpl in Hl; injection Hl as <- ->.
      * exists [], (c :: post), z. split_and!; [done|done| |].
        -- intros c' Hc'. by apply elem_of_nil in Hc'.
        -- intros c' [->|H]%elem_of_cons; [|by apply Hpost].
           exists x. split; [done|]. rewrite Hy in Hz. injection Hz as <-. lia.
      * exists (best :: c :: pre), post, z. split_and!; [done|done| |done].
        destruct (Hpre best) as (y' & Hy' & Hlt); [apply list_elem_of_here|].
        rewrite Hy in Hy'. injection Hy' as <-.
        intros c' [->|[->|H]%elem_of_cons]%elem_of_cons.
        -- exists y. split; [done|lia].
        -- exists x. split; [done|lia].
        -- apply Hpre. by apply list_elem_of_further.
Qed.

Lemma py_max_first_max l m :
  py_max l = Ok (Some m) → is_Some (as_int (score m)) → first_max l m.
Proof.
  destruct l as [|c rest]; simpl; [done|].
  destruct (max_from c rest) as [m'|e] eqn:Hm; simpl; [|done].
  intros [= ->]. by apply max_from_first_max.
Qed.

End JoinerFacts.

Section JoinerStep.

Variable loads : string → value + string.

Implicit Types (idx : gmap key (list comment)) (effs : list effect).

Lemma and_then_true (x y : outcome bool) :
  and_then x y = Ok true ↔ x = Ok true ∧ y = Ok true.
Proof.
  unfold and_then. destruct x as [[|]|e]; simpl; split;
    try (intros [? ?]); try done.
Qed.

(** A row is written only for a post that passes every test of lines 71
    and 73, and it is the only effect of the iteration. *)
Lemma joiner_step_written idx sub min_score line effs r :
  joiner_step loads idx sub min_score line = Ok effs → Written r ∈ effs →
  ∃ post post_id title_v content_v score_v ps k c,
    loads line = inl post ∧
    passes_filters idx post post_id title_v content_v k ∧
    py_get post "score" (VInt 0) = Ok score_v ∧
    py_ge_int score_v min_score = Ok true ∧
    py_get post "score" VNone = Ok ps ∧
    py_max (default [] (idx !! k)) = Ok (Some c) ∧
    py_ge_int (score c) 1 = Ok true ∧
    effs = [Written r] ∧
    r = Row title_v content_v ps (body c) (score c) sub.
Proof.
  unfold joiner_step. destruct (loads line) as [post|msg] eqn:Hl.
  2:{ intros [= <-] [= ]%list_elem_of_singleton. }
  destruct post as [| | | | |kvs]; try done. cbn [py_get bind].
  set (post_id := match assoc "name" kvs with Some v => v | None => VNone end).
  set (title_v := match assoc "title" kvs with Some v => v | None => _ end).
  set (content_v := match assoc "selftext" kvs with Some v => v | None => _ end).
  set (score_v := match assoc "score" kvs with Some v => v | None => VInt 0 end).
  set (ps := match assoc "score" kvs with Some v => v | None => VNone end).
  destruct (and_then _ _) as [[|]|e] eqn:Hacc; cbn [bind]; try done.
  2:{ intros [= <-] H. by apply elem_of_nil in H. }
  apply and_then_true in Hacc as [Hscore Hacc].
  apply and_then_true in Hacc as [Hin Hacc].
  apply and_then_true in Hacc as [Ht1 Hacc].
  apply and_then_true in Hacc as [Ht2 Hacc].
  apply and_then_true in Hacc as [Hc1 Hc2].
  destruct (py_hash post_id) as [k|e] eqn:Hk; cbn [bind] in *; [|done].
  injection Hin as Hin. apply bool_decide_eq_true in Hin.
  destruct (py_max _) as [[c|]|e] eqn:Hmax; cbn [bind]; try done.
  2:{ intros [= <-] H. by apply elem_of_nil in H. }
  destruct (py_ge_int (score c) 1) as [[|]|e] eqn:Hgood; cbn [bind]; try done.
  2:{ intros [= <-] H. by apply elem_of_nil in H. }
  intros [= <-] [= ->]%list_elem_of_singleton.
  exists (VDict kvs), post_id, title_v, content_v, score_v, ps, k, c.
  by repeat split.
Qed.

Lemma rows_of_app effs effs' : rows_of (effs ++ effs') = rows_of effs ++ rows_of effs'.
Proof. apply flat_map_app. Qed.

Lemma rows_of_elem r effs : r ∈ rows_of effs ↔ Written r ∈ effs.
Proof.
  induction effs as [|[msg|r'] effs IH]; simpl.
  - by rewrite !elem_of_nil.
  - rewrite IH, elem_of_cons. split; [by right|]. by intros [[=]|?].
  - rewrite !elem_of_cons, IH.
    split; (intros [H|H]; [left; congruence|by right]).
Qed.

Lemma rows_of_generator_prints evs : rows_of (generator_prints evs) = [].
Proof. induction evs as [|[k b|msg] evs IH]; simpl; done. Qed.

(** Every row of a run of the loop is written by the iteration of some
    line of the posts file. *)
Lemma joiner_loop_written idx sub min_score lines r :
  Written r ∈ (joiner_loop loads idx sub min_score lines).1 →
  ∃ line effs, line ∈ lines ∧
    joiner_step loads idx sub min_score line = Ok effs ∧ Written r ∈ effs.
Proof.
  induction lines as [|line lines IH]; simpl.
  - intros H. by apply elem_of_nil in H.
  - destruct (joiner_step loads idx sub min_score line) as [effs|e] eqn:Hstep.
    + destruct (joiner_loop _ _ _ _ lines) as [effs' r'] eqn:Hloop. simpl in *.
      intros [H|H]%elem_of_app.
      * exists line, effs. split_and!; [apply list_elem_of_here|done|done].
      * destruct (IH H) as (line' & effs'' & ? & ? & ?).
        exists line', effs''. split_and!; [by apply list_elem_of_further|done|done].
    + intros H. by apply elem_of_nil in H.
Qed.

End JoinerStep.

(** ** Lines of the data model *)

Section DataModel.

Variable loads : string → value + string.

Lemma comment_line_verdict line e :
  comment_line loads line → verdict_of loads line ≠ Faulty e.
Proof.
  unfold verdict_of. intros [[msg ->]|(kvs & s & -> & Hl & Hp & Hb)]; [done|].
  cbn [py_get bind]. rewrite Hb.
  destruct Hl as [->|[->|[l ->]]]; cbn [truthy andb bind]; try done.
  destruct (negb (String.eqb l EmptyString)); cbn [andb bind]; [|done].
  destruct Hp as [->|[->|[p ->]]]; cbn [truthy andb bind]; try done.
  destruct (negb (String.eqb p EmptyString)); cbn [py_startswith bind]; [|done].
  destruct (str_prefix _ _); cbn [bind py_contains py_hash negb]; [|done].
  destruct (str_contains "[deleted]" s); cbn [bind negb]; [done|].
  by destruct (str_contains "[removed]" s).
Qed.

(** On a file of such lines the generator reaches its end. *)
Lemma comment_lines_complete fs path B lines :
  fs path = Some lines → Forall (comment_line loads) lines →
  (process_comments_in_chunks loads fs path B).2 = None.
Proof.
  intros Hfs Hall. unfold process_comments_in_chunks. rewrite Hfs.
  assert (∀ d, ∃ d', (grouper_loop loads B d lines).2 = Ok d') as Hok.
  { clear Hfs. induction Hall as [|line lines Hline _ IH]; intros d; [by eexists|].
    rewrite grouper_loop_cons.
    destruct (apply_verdict B d (verdict_of loads line)) as [[d1 evs]|e] eqn:Hv.
    - simpl. apply IH.
    - exfalso. destruct (verdict_of loads line) eqn:Hv'; try done.
      simpl in Hv. by apply (comment_line_verdict line e0). }
  destruct (Hok []) as [d' Hd'].
  destruct (grouper_loop loads B [] lines) as [evs r]. simpl in Hd'. by subst.
Qed.

End DataModel.

(** ** Runs of the grouper *)

Section GrouperRun.

Variable loads : string → value + string.

Implicit Types (B : Z) (evs : list event) (lines : list string) (fs : filesystem).

Lemma batches_yielded k b c evs :
  (k, b) ∈ batches evs → c ∈ b → c ∈ yielded_for k evs.
Proof.
  induction evs as [|[k' b'|msg] evs IH]; simpl.
  - intros H. by apply elem_of_nil in H.
  - intros [[= -> ->]|H]%elem_of_cons Hc; apply elem_of_app.
    + left. by rewrite decide_True.
    + right. by apply IH.
  - apply IH.
Qed.

Lemma yielded_nil k evs :
  (∀ b, (k, b) ∈ batches evs → b ≠ []) →
  yielded_for k evs = [] ↔ ∀ b, (k, b) ∉ batches evs.
Proof.
  induction evs as [|[k' b'|msg] evs IH]; simpl; intros Hne.
  - split; [|done]. intros _ b. apply not_elem_of_nil.
  - assert (∀ b, (k, b) ∈ batches evs → b ≠ []) as Hne'.
    { intros b Hb. apply Hne. by apply list_elem_of_further. }
    split.
    + intros [H1 H2]%app_eq_nil b [[= -> ->]|Hb]%elem_of_cons.
      * rewrite decide_True in H1 by done. subst.
        by apply (Hne []); [apply list_elem_of_here|].
      * by apply (proj1 (IH Hne') H2 b).
    + intros Hno. apply app_nil. split.
      * case_decide; [subst|done]. exfalso. apply (Hno b'), list_elem_of_here.
      * apply IH; [done|]. intros b Hb. apply (Hno b). by apply list_elem_of_further.
  - by apply IH.
Qed.

Lemma eligible_for_app k lines lines' :
  eligible_for loads k (lines ++ lines')
  = eligible_for loads k lines ++ eligible_for loads k lines'.
Proof. apply flat_map_app. Qed.

Lemma eligible_for_elem k c lines :
  c ∈ eligible_for loads k lines →
  ∃ line, line ∈ lines ∧ verdict_of loads line = Eligible k c.
Proof.
  induction lines as [|line lines IH]; simpl.
  - intros H. by apply elem_of_nil in H.
  - intros [H|H]%elem_of_app.
    + exists line. split; [apply list_elem_of_here|].
      destruct (verdict_of loads line) as [| | |k' c'|]; simpl in H;
        try by apply elem_of_nil in H.
      case_decide; [subst|by apply elem_of_nil in H].
      by apply list_elem_of_singleton in H as ->.
    + destruct (IH H) as (line' & ? & ?). exists line'.
      split; [by apply list_elem_of_further|done].
Qed.

(** What the generator yields for a key is a beginning of the list of
    the comments the stream holds for it, and the whole list when the
    generator reaches its end. *)
Lemma grouper_prefix fs path B lines k :
  fs path = Some lines →
  ∃ rest,
    yielded_for k (process_comments_in_chunks loads fs path B).1 ++ rest
    = eligible_for loads k lines ∧
    ((process_comments_in_chunks loads fs path B).2 = None → rest = []).
Proof.
  intros Hfs. unfold process_comments_in_chunks. rewrite Hfs.
  destruct (grouper_loop_conserve loads B k lines []) as (rest & Heq & Hrest).
  pose proof (grouper_loop_wf loads B lines []) as Hwf.
  destruct (grouper_loop loads B [] lines) as [evs [d|e]]; simpl in *.
  - exists []. split; [|done].
    rewrite app_nil_r, yielded_for_app, final_flush_yielded, <- Heq.
    + f_equal. symmetry. by apply Hrest.
    + apply Hwf; [apply wf_nil|done].
  - exists rest. split; [done|]. done.
Qed.

(** A batch that leaves before the end of the stream holds exactly [B]
    comments; one that leaves at the end holds at least one and fewer
    than [B]. *)
Lemma final_flush_sizes B d k b :
  wf d → small B d → (k, b) ∈ batches (final_flush d) →
  1 ≤ Z.of_nat (length b) ≤ B - 1.
Proof.
  intros Hwf Hsmall [Hne Hin]%final_flush_batches.
  specialize (Hsmall k). unfold bucket_of in Hsmall.
  rewrite (dd_elem_lookup _ _ _ Hwf Hin) in Hsmall. simpl in Hsmall.
  destruct b; [done|]. simpl in *. lia.
Qed.

End GrouperRun.

(** ** The grouper: batches and buckets *)

Section GrouperClaims.

Variable loads : string → value + string.

Implicit Types (B : Z) (evs : list event) (lines : list string) (fs : filesystem).

Lemma verdict_tombstone line record k :
  loads line = inl record → tombstoned record k →
  verdict_of loads line = Tombstone k.
Proof.
  intros Hl (link_id & parent_id & body_v & Hli & Hpi & Htl & Htp & Hs & Hb
            & Hm & Hk).
  unfold verdict_of. rewrite Hl, Hli. cbn [bind]. rewrite Hpi. cbn [bind].
  rewrite Htl, Htp, Hs. cbn [bind andb]. rewrite Hb. cbn [bind].
  destruct Hm as [Hm|Hm].
  - rewrite Hm. cbn [bind negb]. rewrite Hk. cbn [bind].
    destruct record; try done.
  - destruct (py_contains_defined _ "[deleted]" _ _ Hm) as [[|] Hd];
      rewrite Hd; cbn [bind negb]; rewrite ?Hm; cbn [bind negb];
      rewrite Hk; cbn [bind]; destruct record; done.
Qed.

Lemma eligible_for_spec k c lines :
  c ∈ eligible_for loads k lines ↔
  ∃ line record, line ∈ lines ∧ loads line = inl record ∧ eligible record k c.
Proof.
  split.
  - intros (line & Hin & (record & ? & ?)%verdict_eligible)%eligible_for_elem.
    by exists line, record.
  - intros (line & record & Hin & Hl & He).
    assert (verdict_of loads line = Eligible k c) as Hv.
    { apply verdict_eligible. by exists record. }
    apply list_elem_of_split in Hin as (l1 & l2 & ->).
    rewrite eligible_for_app. apply elem_of_app. right.
    cbn [eligible_for flat_map]. apply elem_of_app. left.
    rewrite Hv. simpl. rewrite decide_True by done. apply list_elem_of_here.
Qed.

(** X17. With a batch threshold of at least 1, on every stream the
    batches yielded for a key, put end to end, are a beginning of the list
    of the eligible comments of the stream for that key, each one once
    and in the order of the stream; and when the generator is exhausted
    without raising they are the whole list (so their total number is
    the number of those comments), and the index of the joiner, which
    extends the bucket of a key that comes back, holds exactly that list
    under the key, and no entry for a key without an eligible comment.
    [eligible_for_spec] says which comments these are, and by
    [comment_lines_complete] the generator reaches its end on every file
    whose lines are those of the data model. *)
Theorem grouper_partition fs path B lines k :
  1 ≤ B → fs path = Some lines →
  (∃ rest,
     yielded_for k (process_comments_in_chunks loads fs path B).1 ++ rest
     = eligible_for loads k lines) ∧
  ((process_comments_in_chunks loads fs path B).2 = None →
   yielded_for k (process_comments_in_chunks loads fs path B).1
     = eligible_for loads k lines ∧
   length (yielded_for k (process_comments_in_chunks loads fs path B).1)
     = length (eligible_for loads k lines) ∧
   load_comments (process_comments_in_chunks loads fs path B).1 !! k
     = match eligible_for loads k lines with
       | [] => None
       | l => Some l
       end).
Proof.
  intros HB Hfs.
  destruct (grouper_prefix loads fs path B lines k Hfs) as (rest & Heq & Hrest).
  split; [by exists rest|]. intros Hend.
  rewrite (Hrest Hend), app_nil_r in Heq.
  split; [done|]. split; [by rewrite Heq|].
  set (evs := (process_comments_in_chunks loads fs path B).1) in *.
  assert (∀ b, (k, b) ∈ batches evs → b ≠ []) as Hne.
  { subst evs. revert Hend. unfold process_comments_in_chunks. rewrite Hfs.
    pose proof (grouper_loop_batches loads B lines [] k) as Hb.
    destruct (grouper_loop loads B [] lines) as [evs [d|e]]; simpl in *;
      [|done].
    intros _ b. rewrite batches_app. intros [H|H]%elem_of_app.
    - specialize (Hb b HB (small_nil B HB) H).
      destruct b; simpl in *; [lia|done].
    - by apply final_flush_batches in H as [? ?]. }
  pose proof (load_comments_lookup evs k) as Hidx.
  pose proof (load_comments_keys evs k) as Hkeys.
  pose proof (yielded_nil k _ Hne) as Hnil.
  rewrite Heq in Hidx, Hnil.
  destruct (eligible_for loads k lines) as [|c l] eqn:He.
  - destruct (load_comments _ !! k) as [x|] eqn:Hx; [|done].
    exfalso. destruct (proj1 Hkeys) as [b Hb]; [by eexists|].
    by apply (proj1 Hnil eq_refl b).
  - destruct (load_comments _ !! k) as [x|] eqn:Hx; [by simpl in Hidx; subst|].
    exfalso. assert (∀ b, (k, b) ∉ batches evs) as Hno.
    { intros b Hb. destruct (proj2 Hkeys) as [? [=]]. by exists b. }
    by apply Hnil in Hno.
Qed.

(** C10. With a batch threshold [B] of at least 1, every batch yielded
    while the stream is read holds exactly [B] comments, every batch
    yielded at the end of the stream holds at least 1 and at most
    [B - 1], and no yielded batch is empty. *)
Theorem batch_sizes fs path B lines :
  1 ≤ B → fs path = Some lines →
  ∃ before at_end,
    (process_comments_in_chunks loads fs path B).1 = before ++ at_end ∧
    before = (grouper_loop loads B [] lines).1 ∧
    at_end = match (grouper_loop loads B [] lines).2 with
             | Ok d => final_flush d
             | Raise _ => []
             end ∧
    (∀ k b, (k, b) ∈ batches before → Z.of_nat (length b) = B) ∧
    (∀ k b, (k, b) ∈ batches at_end → 1 ≤ Z.of_nat (length b) ≤ B - 1) ∧
    (∀ k b, (k, b) ∈ batches (before ++ at_end) → b ≠ []).
Proof.
  intros HB Hfs. eexists _, _. split_and!; [|done|done| | |].
  - unfold process_comments_in_chunks. rewrite Hfs.
    destruct (grouper_loop loads B [] lines) as [evs [d|e]]; simpl; [done|].
    by rewrite app_nil_r.
  - intros k b. apply grouper_loop_batches; [done|by apply small_nil].
  - intros k b.
    pose proof (grouper_loop_small loads B lines []) as Hs.
    pose proof (grouper_loop_wf loads B lines []) as Hw.
    destruct (grouper_loop loads B [] lines).2 as [d|e]; simpl.
    + apply final_flush_sizes; [by apply Hw; [apply wf_nil|]|].
      apply Hs; [done|by apply small_nil|done].
    + intros H. by apply elem_of_nil in H.
  - intros k b. rewrite batches_app. intros [H|H]%elem_of_app.
    + apply (grouper_loop_batches loads B lines [] k b HB (small_nil B HB)) in H.
      destruct b; simpl in *; [lia|done].
    + destruct (grouper_loop loads B [] lines).2 as [d|e]; simpl in H.
      * by apply final_flush_batches in H as [? ?].
      * by apply elem_of_nil in H.
Qed.

(** C6. A record with a marker in its body, without link_id or
    parent_id, or whose parent_id does not start with [t3_], adds nothing
    to any bucket: whatever the generator yields for a key is made of the
    comments of the other lines of the stream, and no yielded comment has
    a marker in its body. *)
Theorem excluded_never_yielded fs path B pre line post record k :
  fs path = Some (pre ++ line :: post) →
  loads line = inl record → excluded record →
  entry k (verdict_of loads line) = [] ∧
  (∃ rest,
     yielded_for k (process_comments_in_chunks loads fs path B).1 ++ rest
     = eligible_for loads k (pre ++ post)) ∧
  (∀ b c, (k, b) ∈ batches (process_comments_in_chunks loads fs path B).1 →
          c ∈ b → ¬ has_marker (body c)).
Proof.
  intros Hfs Hl Hex.
  pose proof (excluded_entry loads line record k Hl Hex) as Hentry.
  destruct (grouper_prefix loads fs path B _ k Hfs) as (rest & Heq & _).
  split; [done|]. split.
  - exists rest. rewrite Heq, !eligible_for_app. f_equal.
    cbn [eligible_for flat_map]. by rewrite Hentry.
  - intros b c Hb Hc.
    assert (c ∈ eligible_for loads k (pre ++ line :: post)) as Hin.
    { rewrite <- Heq. apply elem_of_app. left. by eapply batches_yielded. }
    apply eligible_for_spec in Hin as (line' & record' & _ & _ & He).
    destruct He as (? & ? & _ & _ & _ & _ & _ & _ & Hd & Hr & _).
    intros [Hm|Hm]; congruence.
Qed.

(** C3, as amended.  The threshold test comes after the attempt to
    append, whether or not a comment was appended: on a line with a
    marker in its body it is applied to the unchanged bucket, on an
    eligible line to the bucket with the new comment.  But with a
    threshold of at least 1 the line with the marker never makes a batch
    leave, the bucket being below the threshold whenever a line is read;
    only a threshold of 0 or less makes it yield its unchanged bucket. *)
Theorem tombstone_never_flushes B pre line record evs d k :
  grouper_loop loads B [] pre = (evs, Ok d) →
  loads line = inl record → tombstoned record k →
  grouper_step loads B d line = Ok (flush_check B k d) ∧
  (∀ line' record' c,
     loads line' = inl record' → eligible record' k c →
     grouper_step loads B d line'
     = Ok (flush_check B k (dd_append k c d))) ∧
  (1 ≤ B →
   (flush_check B k d).2 = [] ∧
   ∀ k', bucket_of k' (flush_check B k d).1 = bucket_of k' d) ∧
  (B ≤ 0 → (flush_check B k d).2 = [Yield k (bucket_of k d)]).
Proof.
  intros Hloop Hl Ht. split_and!.
  - by rewrite grouper_step_verdict, (verdict_tombstone _ _ _ Hl Ht).
  - intros line' record' c Hl' He. rewrite grouper_step_verdict.
    assert (verdict_of loads line' = Eligible k c) as ->; [|done].
    apply verdict_eligible. by exists record'.
  - intros HB.
    assert (small B d) as Hs.
    { apply (grouper_loop_small loads B pre []); [done|by apply small_nil|].
      by rewrite Hloop. }
    assert ((flush_check B k d).2 = []) as Hnil.
    { specialize (Hs k). unfold flush_check.
      pose proof (dd_getitem_fst k d) as Hf.
      destruct (dd_getitem k d) as [bucket d2]; simpl in *.
      destruct (Z.geb_spec (Z.of_nat (length bucket)) B); [subst; lia|done]. }
    split; [done|]. intros k'.
    pose proof (flush_check_conserve B k d k') as Hc.
    by rewrite Hnil in Hc.
  - intros HB. unfold flush_check.
    pose proof (dd_getitem_fst k d) as Hf.
    destruct (dd_getitem k d) as [bucket d2]; simpl in *.
    destruct (Z.geb_spec (Z.of_nat (length bucket)) B); [by subst|lia].
Qed.

End GrouperClaims.

(** C3, as stated, fails: no stream and no threshold of at least 1 make a
    line with a marker in its body yield a batch. *)
Lemma tombstone_flush_refuted :
  ¬ ∃ (loads : string → value + string) (B : Z) (pre : list string)
      (line : string) (record body_v : value) (evs : list event) (d : ddict)
      (p : ddict * list event) (k : key) (b : list comment),
      1 ≤ B ∧ grouper_loop loads B [] pre = (evs, Ok d) ∧
      loads line = inl record ∧
      py_get record "body" VNone = Ok body_v ∧ has_marker body_v ∧
      grouper_step loads B d line = Ok p ∧ (k, b) ∈ batches p.2.
Proof.
  intros (loads & B & pre & line & record & body_v & evs & d & p & k & b
          & HB & Hloop & Hl & Hb & Hm & Hstep & Hin).
  assert (small B d) as Hs.
  { apply (grouper_loop_small loads B pre []); [done|by apply small_nil|].
    by rewrite Hloop. }
  rewrite grouper_step_verdict in Hstep.
  destruct (apply_verdict_batches _ _ _ _ _ _ HB Hs Hstep Hin) as [_ [c Hv]].
  assert (excluded record) as Hex by (left; eauto).
  pose proof (excluded_entry loads line record k Hl Hex) as He.
  rewrite Hv in He. simpl in He. by rewrite decide_True in He.
Qed.

(** ** The joiner: selection and rows *)

Section JoinerClaims.

Variable loads : string → value + string.

Implicit Types (idx : gmap key (list comment)) (effs : list effect)
  (fs : filesystem).

Lemma py_get_defined (post : value) f f' (d d' v : value) :
  py_get post f d = Ok v → ∃ v', py_get post f' d' = Ok v'.
Proof. destruct post; simpl; intros; simplify_eq; eauto. Qed.

(** What the iteration does for a post that passes the tests of line 71
    other than the one on its score. *)
Lemma joiner_step_filtered idx sub min_score line (post post_id title_v
    content_v score_v ps : value) k :
  loads line = inl post →
  passes_filters idx post post_id title_v content_v k →
  py_get post "score" (VInt 0) = Ok score_v →
  py_get post "score" VNone = Ok ps →
  joiner_step loads idx sub min_score line
  = let* enough := py_ge_int score_v min_score in
    if enough : bool then
      let* top := py_max (default [] (idx !! k)) in
      match top with
      | None => Ok []
      | Some c =>
          let* good := py_ge_int (score c) 1 in
          Ok (if good : bool
              then [Written (Row title_v content_v ps (body c) (score c) sub)]
              else [])
      end
    else Ok [].
Proof.
  intros Hl (Hid & Ht & Hc & Hk & Hin & Ht1 & Ht2 & Hc1 & Hc2) Hs Hps.
  unfold joiner_step. rewrite Hl, Hid. cbn [bind].
  rewrite Ht. cbn [bind]. rewrite Hc. cbn [bind]. rewrite Hs. cbn [bind].
  destruct (py_ge_int score_v min_score) as [[|]|e]; cbn [and_then bind]; try done.
  rewrite Hk. cbn [bind]. rewrite bool_decide_eq_true_2 by done.
  rewrite Ht1. cbn [bind]. rewrite Ht2. cbn [bind].
  rewrite Hc1. cbn [bind]. rewrite Hc2. cbn [bind].
  destruct (py_max _) as [[c|]|e]; cbn [bind]; try done.
  destruct (py_ge_int (score c) 1) as [[|]|e]; cbn [bind]; try done.
  by rewrite Hps.
Qed.

(** A bucket of integer scores always has its maximum. *)
Lemma max_from_int (l : list comment) : ∀ best,
  (∀ c, c ∈ best :: l → is_Some (as_int (score c))) →
  ∃ m, max_from best l = Ok m ∧ m ∈ best :: l.
Proof.
  induction l as [|c l IH]; intros best Hall; simpl.
  - exists best. split; [done|apply list_elem_of_here].
  - destruct (Hall c) as [x Hx];
      [apply list_elem_of_further, list_elem_of_here|].
    destruct (Hall best) as [y Hy]; [apply list_elem_of_here|].
    rewrite (py_gt_int _ _ _ _ Hx Hy). cbn [bind].
    destruct (IH (if y <? x then c else best)) as (m & Hm & Hin).
    { intros c' [->|H]%elem_of_cons.
      - destruct (y <? x); apply Hall;
          [apply list_elem_of_further|]; apply list_elem_of_here.
      - apply Hall. by do 2 apply list_elem_of_further. }
    exists m. split; [done|].
    apply elem_of_cons in Hin as [->|Hin].
    + destruct (y <? x); [apply list_elem_of_further|]; apply list_elem_of_here.
    + by do 2 apply list_elem_of_further.
Qed.

Lemma py_max_int (l : list comment) :
  (∀ c, c ∈ l → is_Some (as_int (score c))) →
  ∃ top, py_max l = Ok top ∧ ∀ m, top = Some m → m ∈ l.
Proof.
  destruct l as [|c l]; simpl; intros Hall.
  - exists None. by split.
  - destruct (max_from_int l c Hall) as (m & -> & Hin). simpl.
    exists (Some m). split; [done|]. by intros ? [= <-].
Qed.

Lemma first_max_elem (l : list comment) m : first_max l m → m ∈ l.
Proof.
  intros (pre & post & z & -> & _). apply elem_of_app. right.
  apply list_elem_of_here.
Qed.

(** C4. For a post that the joiner accepts at line 71 and whose bucket
    in the index is not empty, whenever the iteration ends without an
    exception the comment chosen at line 72 is the first comment of the
    bucket, in the order of the index, with the greatest score: every
    score of the bucket is an integer, the scores before it are smaller
    and none is greater; the row, written when that score is at least 1,
    carries this comment.  For the scores 3, 7, 7, 2 it is the first
    comment with score 7. *)
Theorem joiner_selects_first_max idx sub min_score line
    (post post_id title_v content_v score_v ps : value) k
    (bucket : list comment) effs :
  loads line = inl post →
  passes_filters idx post post_id title_v content_v k →
  py_get post "score" (VInt 0) = Ok score_v →
  py_get post "score" VNone = Ok ps →
  py_ge_int score_v min_score = Ok true →
  idx !! k = Some bucket → bucket ≠ [] →
  joiner_step loads idx sub min_score line = Ok effs →
  (∃ c z,
     py_max bucket = Ok (Some c) ∧ first_max bucket c ∧
     as_int (score c) = Some z ∧
     effs = if 1 <=? z
            then [Written (Row title_v content_v ps (body c) (score c) sub)]
            else []) ∧
  ∀ b1 b2 b3 b4 : value,
    py_max [Comment b1 (VInt 3); Comment b2 (VInt 7);
            Comment b3 (VInt 7); Comment b4 (VInt 2)]
    = Ok (Some (Comment b2 (VInt 7))).
Proof.
  intros Hl Hacc Hs Hps Hge Hb Hne Hstep. split; [|done].
  rewrite (joiner_step_filtered _ _ _ _ _ _ _ _ _ _ _ Hl Hacc Hs Hps), Hge
    in Hstep.
  cbn [bind] in Hstep. rewrite Hb in Hstep. simpl default in Hstep.
  destruct (py_max bucket) as [[c|]|e] eqn:Hmax; cbn [bind] in Hstep; try done.
  - unfold py_ge_int in Hstep.
    destruct (as_int (score c)) as [z|] eqn:Hz; cbn [bind] in Hstep; [|done].
    injection Hstep as <-. exists c, z. split_and!; try done.
    apply py_max_first_max; [done|]. by rewrite Hz.
  - destruct bucket as [|c0 rest]; [done|]. simpl in Hmax.
    by destruct (max_from c0 rest).
Qed.
(** The row written for a post carries the first comment of its bucket
    with the greatest score. *)
Lemma written_row_first_max idx sub min_score line effs r :
  joiner_step loads idx sub min_score line = Ok effs → Written r ∈ effs →
  ∃ k bucket c,
    idx !! k = Some bucket ∧ first_max bucket c ∧
    top_comment r = body c ∧ comment_score r = score c ∧
    py_ge_int (score c) 1 = Ok true.
Proof.
  intros Hstep Hin.
  destruct (joiner_step_written loads _ _ _ _ _ _ Hstep Hin)
    as (post & post_id & title_v & content_v & score_v & ps & k & c & Hl
        & Hacc & Hs & Hge & Hps & Hmax & Hgood & _ & ->).
  destruct Hacc as (_ & _ & _ & _ & [bucket Hb] & _).
  exists k, bucket, c. split_and!; try done.
  rewrite Hb in Hmax. apply py_max_first_max; [done|].
  unfold py_ge_int in Hgood. by destruct (as_int (score c)).
Qed.

(** C5. Every row the joiner writes has a comment_score of at least 1;
    and a post whose indexed comments all have a score of 0 or less
    gets no row, the iteration ending without a row even when the post
    passes every other test. *)
Theorem comment_score_at_least_1 idx sub min_score line :
  (∀ fs posts_filepath gen r,
     r ∈ rows_of (match_posts_with_top_comments loads fs posts_filepath gen
                    sub min_score).1 →
     ∃ z, as_int (comment_score r) = Some z ∧ 1 ≤ z) ∧
  (∀ post post_id k,
     loads line = inl post →
     py_get post "name" VNone = Ok post_id → py_hash post_id = Ok k →
     (∀ c, c ∈ default [] (idx !! k) →
           ∃ z, as_int (score c) = Some z ∧ z ≤ 0) →
     (∀ effs, joiner_step loads idx sub min_score line = Ok effs →
              rows_of effs = []) ∧
     (∀ title_v content_v score_v,
        passes_filters idx post post_id title_v content_v k →
        py_get post "score" (VInt 0) = Ok score_v →
        py_ge_int score_v min_score = Ok true →
        joiner_step loads idx sub min_score line = Ok [])).
Proof.
  split.
  - intros fs posts_filepath [evs died] r. unfold match_posts_with_top_comments.
    assert (∀ idx lines,
              r ∈ rows_of (joiner_loop loads idx sub min_score lines).1 →
              ∃ z, as_int (comment_score r) = Some z ∧ 1 ≤ z) as Hloop.
    { intros idx' lines (line' & effs & _ & Hstep & Hin)%rows_of_elem%joiner_loop_written.
      destruct (written_row_first_max _ _ _ _ _ _ Hstep Hin)
        as (k & bucket & c & _ & _ & _ & -> & Hgood).
      unfold py_ge_int in Hgood. destruct (as_int (score c)) as [z|]; [|done].
      exists z. split; [done|]. injection Hgood as Hgood. lia. }
    destruct died as [e|]; simpl.
    + rewrite rows_of_generator_prints. intros H. by apply elem_of_nil in H.
    + destruct (fs posts_filepath) as [lines|]; simpl.
      * specialize (Hloop (load_comments evs) lines).
        destruct (joiner_loop _ _ _ _ lines) as [effs r']. simpl in *.
        rewrite rows_of_app, rows_of_generator_prints. apply Hloop.
      * rewrite rows_of_app, rows_of_generator_prints. simpl.
        intros H. by apply elem_of_nil in H.
  - intros post post_id k Hl Hid Hk Hlow.
    assert (∀ effs r, joiner_step loads idx sub min_score line = Ok effs →
                      Written r ∉ effs) as Hnone.
    { intros effs r Hstep Hin.
      destruct (joiner_step_written loads _ _ _ _ _ _ Hstep Hin)
        as (post' & post_id' & title_v & content_v & score_v & ps & k' & c & Hl'
            & Hacc & Hs & Hge & Hps & Hmax & Hgood & _ & _).
      rewrite Hl in Hl'. injection Hl' as <-.
      destruct Hacc as (Hid' & _ & _ & Hk' & [bucket Hb] & _).
      rewrite Hid in Hid'. injection Hid' as <-.
      rewrite Hk in Hk'. injection Hk' as <-.
      assert (is_Some (as_int (score c))) as Hnum.
      { unfold py_ge_int in Hgood. by destruct (as_int (score c)). }
      pose proof (py_max_first_max _ _ Hmax Hnum) as Hin'%first_max_elem.
      destruct (Hlow c Hin') as (z & Hz & Hle).
      unfold py_ge_int in Hgood. rewrite Hz in Hgood. injection Hgood as Hgood.
      lia. }
    split.
    + intros effs Hstep. destruct (rows_of effs) as [|r rs] eqn:Hr; [done|].
      exfalso. apply (Hnone effs r Hstep). apply rows_of_elem. rewrite Hr.
      apply list_elem_of_here.
    + intros title_v content_v score_v Hacc Hs Hge.
      destruct (py_get_defined _ _ "score" _ VNone _ Hs) as [ps Hps].
      rewrite (joiner_step_filtered _ _ _ _ _ _ _ _ _ _ _ Hl Hacc Hs Hps), Hge.
      cbn [bind].
      destruct (py_max_int (default [] (idx !! k))) as (top & -> & Htop).
      { intros c (z & -> & _)%Hlow. by eexists. }
      cbn [bind]. destruct top as [m|]; [|done].
      destruct (Hlow m (Htop m eq_refl)) as (z & Hz & Hle).
      unfold py_ge_int. rewrite Hz. cbn [bind].
      destruct (Z.leb_spec 1 z); [lia|done].
Qed.


(** C9. When the comments file is not there the generator prints the
    failure, yields nothing and ends without an exception; when the
    posts file is not there the joiner, once the generator it is given is
    exhausted, prints the failure, writes no row and returns without an
    exception. *)
Theorem missing_file fs path :
  fs path = None →
  (∀ B, process_comments_in_chunks loads fs path B
        = ([Print ("File not found: " +:+ path)], None) ∧
        batches (process_comments_in_chunks loads fs path B).1 = []) ∧
  (∀ evs sub min_score,
     match_posts_with_top_comments loads fs path (evs, None) sub min_score
     = (generator_prints evs ++ [Printed ("File not found: " +:+ path)], None)) ∧
  (∀ gen sub min_score,
     rows_of (match_posts_with_top_comments loads fs path gen sub min_score).1
     = []).
Proof.
  intros Hfs. split_and!.
  - intros B. unfold process_comments_in_chunks. by rewrite Hfs.
  - intros evs sub min_score. unfold match_posts_with_top_comments.
    by rewrite Hfs.
  - intros [evs [e|]] sub min_score; unfold match_posts_with_top_comments;
      simpl; rewrite ?Hfs; simpl;
      rewrite ?rows_of_app, rows_of_generator_prints; done.
Qed.

End JoinerClaims.

(** ** The scenario, end to end *)

Section ScenarioClaim.

Import Scenario.

Variable loads : string → value + string.

(** C7. On a comments file made of the two lines of the scenario and a
    posts file made of its one line, with a minimum score of 0, the
    grouper followed by the joiner writes exactly one row: title T,
    content C, post_score 10, top_comment hello, comment_score 5 and the
    label it was given; whatever the batch threshold. *)
Theorem end_to_end (fs : filesystem) comments_filepath posts_filepath label B :
  loads comment_1 = inl comment_1_doc →
  loads comment_2 = inl comment_2_doc →
  loads post_1 = inl post_1_doc →
  fs comments_filepath = Some [comment_1; comment_2] →
  fs posts_filepath = Some [post_1] →
  match_posts_with_top_comments loads fs posts_filepath
    (process_comments_in_chunks loads fs comments_filepath B) label 0
  = ([Written (Row (VStr "T") (VStr "C") (VInt 10) (VStr "hello") (VInt 5)
                   label)], None).
Proof.
  intros H1 H2 H3 Hc Hp.
  set (k := KStr "t3_A"). set (c := Comment (VStr "hello") (VInt 5)).
  assert (∃ evs, process_comments_in_chunks loads fs comments_filepath B
                 = (evs, None) ∧ generator_prints evs = [] ∧
                 yielded_for k evs = [c] ∧ (k, [c]) ∈ batches evs)
    as (evs & -> & Hprints & Hy & Hb).
  { unfold process_comments_in_chunks. rewrite Hc.
    assert (verdict_of loads comment_1 = Eligible k c) as Hv1.
    { unfold verdict_of. by rewrite H1. }
    assert (verdict_of loads comment_2 = Tombstone k) as Hv2.
    { unfold verdict_of. by rewrite H2. }
    rewrite grouper_loop_cons, Hv1. cbn [apply_verdict].
    destruct (flush_check B k (dd_append k c [])) as [d1 ev1] eqn:Hf1.
    rewrite grouper_loop_cons, Hv2. cbn [apply_verdict].
    destruct (flush_check B k d1) as [d2 ev2] eqn:Hf2.
    cbn [grouper_loop fst snd]. rewrite app_nil_r.
    unfold flush_check, dd_append in Hf1. simpl in Hf1.
    destruct (Z.geb_spec (Z.of_nat 1) B); injection Hf1 as <- <-;
      unfold flush_check in Hf2; simpl in Hf2.
    - destruct (Z.geb_spec (Z.of_nat 0) B); injection Hf2 as <- <-;
        (eexists; split; [done|]; simpl; rewrite ?decide_True by done;
         split_and!; [done|done|apply list_elem_of_here]).
    - destruct (Z.geb_spec (Z.of_nat 1) B); [lia|]. injection Hf2 as <- <-.
      eexists. split; [done|]. simpl. rewrite ?decide_True by done.
      split_and!; [done|done|apply list_elem_of_here]. }
  unfold match_posts_with_top_comments. rewrite Hp, Hprints. simpl.
  assert (load_comments evs !! k = Some [c]) as Hidx.
  { pose proof (load_comments_lookup evs k) as Hl.
    destruct (proj2 (load_comments_keys evs k)) as [x Hx]; [by eexists|].
    rewrite Hx in Hl. simpl in Hl. congruence. }
  rewrite (joiner_step_filtered loads (load_comments evs) label 0 post_1
             post_1_doc (VStr "t3_A") (VStr "T") (VStr "C") (VInt 10) (VInt 10) k);
    try done.
  by rewrite Hidx.
Qed.

End ScenarioClaim.

(** ** Runs on concrete files *)

Example demo_run :
  process_comments_in_chunks Json.loads Demo.fs "demo_comments" 2
  = ([Print "Error decoding JSON in comments file: Expecting value";
      Yield Demo.A [Demo.first; Demo.second];
      Yield Demo.A [Demo.third]; Yield Demo.B [Demo.other]], None).
Proof. vm_compute. reflexivity. Qed.

Example demo_rows :
  match_posts_with_top_comments Json.loads Demo.fs "demo_submissions"
    (process_comments_in_chunks Json.loads Demo.fs "demo_comments" 2) "demo" 0
  = ([Printed "Error decoding JSON in comments file: Expecting value";
      Written (Row (VStr "T") (VStr "C") (VInt 10) (VStr "second") (VInt 7)
                   "demo")], None).
Proof. vm_compute. reflexivity. Qed.

(** C1. The claim fails on a stream with a record that raises.  The
    first line of the comments file of [Demo.faulty_fs] holds an
    eligible comment for [t3_A], the only one of the stream; the second
    line has no body, and the generator raises [TypeError] on it before
    the final flush.  So no comment is yielded for [t3_A], against one
    that is eligible, and the index built from what was yielded has no
    entry for the key. *)
Theorem eligible_comment_lost :
  Demo.faulty_fs "demo_comments"
  = Some [Scenario.comment_1;
          Json.dq "{'link_id':'t3_B','parent_id':'t3_B'}"] ∧
  Json.loads Scenario.comment_1 = inl Scenario.comment_1_doc ∧
  eligible Scenario.comment_1_doc Demo.A (Comment (VStr "hello") (VInt 5)) ∧
  eligible_for Json.loads Demo.A
    [Scenario.comment_1; Json.dq "{'link_id':'t3_B','parent_id':'t3_B'}"]
  = [Comment (VStr "hello") (VInt 5)] ∧
  process_comments_in_chunks Json.loads Demo.faulty_fs "demo_comments"
    default_batch_size = ([], Some TypeError) ∧
  yielded_for Demo.A
    (process_comments_in_chunks Json.loads Demo.faulty_fs "demo_comments"
       default_batch_size).1 = [] ∧
  length (yielded_for Demo.A
            (process_comments_in_chunks Json.loads Demo.faulty_fs
               "demo_comments" default_batch_size).1)
  ≠ length (eligible_for Json.loads Demo.A
              [Scenario.comment_1;
               Json.dq "{'link_id':'t3_B','parent_id':'t3_B'}"]) ∧
  load_comments
    (process_comments_in_chunks Json.loads Demo.faulty_fs "demo_comments"
       default_batch_size).1 !! Demo.A = None.
Proof.
  split_and!; try (vm_compute; reflexivity).
  - exists (VStr "t3_A"), (VStr "t3_A"). by split_and!.
  - vm_compute. discriminate.
Qed.

(** C2. The claim fails on a record without a body: the generator dies
    of a [TypeError] on the second line, before it has yielded the
    eligible comment of the first, and the exception leaves the joiner
    too.  A body that is a number, and a post whose title is [null], end
    the same way. *)
Theorem missing_body_raises :
  process_comments_in_chunks Json.loads Demo.faulty_fs "demo_comments"
    default_batch_size = ([], Some TypeError) ∧
  match_posts_with_top_comments Json.loads Demo.fs "demo_submissions"
    (process_comments_in_chunks Json.loads Demo.faulty_fs "demo_comments"
       default_batch_size) "demo" 0 = ([], Some TypeError) ∧
  process_comments_in_chunks Json.loads Demo.faulty_fs "numeric_body"
    default_batch_size = ([], Some TypeError) ∧
  match_posts_with_top_comments Json.loads Demo.faulty_fs "null_title"
    (process_comments_in_chunks Json.loads Demo.fs "demo_comments" 2) "demo" 0
  = ([Printed "Error decoding JSON in comments file: Expecting value"],
     Some TypeError).
Proof. vm_compute. by split_and!. Qed.

(** ** The theorems on the concrete files *)

Lemma grouper_partition_witness :
  yielded_for Demo.A
    (process_comments_in_chunks Json.loads Demo.fs "demo_comments" 2).1
    = eligible_for Json.loads Demo.A Demo.comments ∧
  length (yielded_for Demo.A
    (process_comments_in_chunks Json.loads Demo.fs "demo_comments" 2).1)
    = length (eligible_for Json.loads Demo.A Demo.comments) ∧
  load_comments
    (process_comments_in_chunks Json.loads Demo.fs "demo_comments" 2).1
    !! Demo.A
    = match eligible_for Json.loads Demo.A Demo.comments with
      | [] => None
      | l => Some l
      end.
Proof.
  apply (grouper_partition Json.loads Demo.fs "demo_comments" 2 Demo.comments
           Demo.A).
  - lia.
  - reflexivity.
  - vm_compute. reflexivity.
Defined.

Lemma batch_sizes_witness :
  ∃ before at_end,
    (process_comments_in_chunks Json.loads Demo.fs "demo_comments" 2).1
    = before ++ at_end ∧
    before = (grouper_loop Json.loads 2 [] Demo.comments).1 ∧
    at_end = match (grouper_loop Json.loads 2 [] Demo.comments).2 with
             | Ok d => final_flush d
             | Raise _ => []
             end ∧
    (∀ k b, (k, b) ∈ batches before → Z.of_nat (length b) = 2) ∧
    (∀ k b, (k, b) ∈ batches at_end → 1 ≤ Z.of_nat (length b) ≤ 2 - 1) ∧
    (∀ k b, (k, b) ∈ batches (before ++ at_end) → b ≠ []).
Proof.
  apply (batch_sizes Json.loads Demo.fs "demo_comments" 2 Demo.comments).
  - lia.
  - reflexivity.
Defined.

Lemma excluded_never_yielded_witness :
  entry Demo.A
    (verdict_of Json.loads
       (Json.dq "{'link_id':'t3_A','parent_id':'t3_A','body':'[deleted]','score':9}"))
  = [] ∧
  (∃ rest,
     yielded_for Demo.A
       (process_comments_in_chunks Json.loads Demo.fs "demo_comments" 2).1
     ++ rest
     = eligible_for Json.loads Demo.A
         (take 1 Demo.comments ++ drop 2 Demo.comments)) ∧
  (∀ b c,
     (Demo.A, b)
       ∈ batches (process_comments_in_chunks Json.loads Demo.fs
                    "demo_comments" 2).1 →
     c ∈ b → ¬ has_marker (body c)).
Proof.
  apply (excluded_never_yielded Json.loads Demo.fs "demo_comments" 2
           (take 1 Demo.comments) _ (drop 2 Demo.comments)
           (VDict [("link_id", VStr "t3_A"); ("parent_id", VStr "t3_A");
                   ("body", VStr "[deleted]"); ("score", VInt 9)])
           Demo.A).
  - reflexivity.
  - vm_compute. reflexivity.
  - left. exists (VStr "[deleted]"). split; [reflexivity|].
    left. vm_compute. reflexivity.
Defined.

Lemma tombstone_never_flushes_witness :
  grouper_step Json.loads 2 [(Demo.A, [Demo.first])]
    (Json.dq "{'link_id':'t3_A','parent_id':'t3_A','body':'[deleted]','score':9}")
  = Ok (flush_check 2 Demo.A [(Demo.A, [Demo.first])]) ∧
  (∀ line' record' c,
     Json.loads line' = inl record' → eligible record' Demo.A c →
     grouper_step Json.loads 2 [(Demo.A, [Demo.first])] line'
     = Ok (flush_check 2 Demo.A (dd_append Demo.A c [(Demo.A, [Demo.first])]))) ∧
  (1 ≤ 2 →
   (flush_check 2 Demo.A [(Demo.A, [Demo.first])]).2 = [] ∧
   ∀ k', bucket_of k' (flush_check 2 Demo.A [(Demo.A, [Demo.first])]).1
         = bucket_of k' [(Demo.A, [Demo.first])]) ∧
  (2 ≤ 0 →
   (flush_check 2 Demo.A [(Demo.A, [Demo.first])]).2
   = [Yield Demo.A (bucket_of Demo.A [(Demo.A, [Demo.first])])]).
Proof.
  apply (tombstone_never_flushes Json.loads 2 (take 1 Demo.comments) _
           (VDict [("link_id", VStr "t3_A"); ("parent_id", VStr "t3_A");
                   ("body", VStr "[deleted]"); ("score", VInt 9)])
           [] [(Demo.A, [Demo.first])] Demo.A).
  - vm_compute. reflexivity.
  - vm_compute. reflexivity.
  - exists (VStr "t3_A"), (VStr "t3_A"), (VStr "[deleted]").
    repeat split; try reflexivity. left. vm_compute. reflexivity.
Defined.

Lemma joiner_selects_first_max_witness :
  (∃ c z,
     py_max [Demo.first; Demo.second; Demo.third] = Ok (Some c) ∧
     first_max [Demo.first; Demo.second; Demo.third] c ∧
     as_int (score c) = Some z ∧
     [Written (Row (VStr "T") (VStr "C") (VInt 10) (VStr "second") (VInt 7)
                   "demo")]
     = if 1 <=? z
       then [Written (Row (VStr "T") (VStr "C") (VInt 10) (body c) (score c)
                          "demo")]
       else []) ∧
  ∀ b1 b2 b3 b4 : value,
    py_max [Comment b1 (VInt 3); Comment b2 (VInt 7);
            Comment b3 (VInt 7); Comment b4 (VInt 2)]
    = Ok (Some (Comment b2 (VInt 7))).
Proof.
  apply (joiner_selects_first_max Json.loads Demo.idx "demo" 0
           (Json.dq "{'name':'t3_A','title':'T','selftext':'C','score':10}")
           (VDict [("name", VStr "t3_A"); ("title", VStr "T");
                   ("selftext", VStr "C"); ("score", VInt 10)])
           (VStr "t3_A") (VStr "T") (VStr "C") (VInt 10) (VInt 10) Demo.A).
  - vm_compute. reflexivity.
  - repeat split; try (vm_compute; reflexivity).
    exists [Demo.first; Demo.second; Demo.third]. vm_compute. reflexivity.
  - reflexivity.
  - reflexivity.
  - reflexivity.
  - vm_compute. reflexivity.
  - discriminate.
  - vm_compute. reflexivity.
Defined.


Lemma comment_score_at_least_1_witness :
  (∃ z, as_int (VInt 7) = Some z ∧ 1 ≤ z) ∧
  joiner_step Json.loads Demo.idx "demo" 0
    (Json.dq "{'name':'t3_B','title':'U','selftext':'D','score':10}")
  = Ok [].
Proof.
  pose proof (comment_score_at_least_1 Json.loads Demo.idx "demo" 0
    (Json.dq "{'name':'t3_B','title':'U','selftext':'D','score':10}"))
    as [Hrows Hlow].
  split.
  - apply (Hrows Demo.fs "demo_submissions"
             (process_comments_in_chunks Json.loads Demo.fs "demo_comments" 2)
             (Row (VStr "T") (VStr "C") (VInt 10) (VStr "second") (VInt 7)
                  "demo")).
    vm_compute. apply list_elem_of_here.
  - assert (Demo.idx !! Demo.B = Some [Demo.other]) as Hb
      by (vm_compute; reflexivity).
    destruct (Hlow (VDict [("name", VStr "t3_B"); ("title", VStr "U");
                           ("selftext", VStr "D"); ("score", VInt 10)])
                   (VStr "t3_B") Demo.B) as [_ Hno].
    + vm_compute. reflexivity.
    + reflexivity.
    + reflexivity.
    + rewrite Hb. simpl. intros c Hc.
      apply list_elem_of_singleton in Hc as ->.
      exists 0. split; [reflexivity|lia].
    + apply (Hno (VStr "U") (VStr "D") (VInt 10)).
      * repeat split; try (vm_compute; reflexivity). by exists [Demo.other].
      * reflexivity.
      * reflexivity.
Defined.

Lemma missing_file_witness :
  (∀ B, process_comments_in_chunks Json.loads Demo.fs "nowhere" B
        = ([Print ("File not found: " +:+ "nowhere")], None) ∧
        batches (process_comments_in_chunks Json.loads Demo.fs "nowhere" B).1
        = []) ∧
  (∀ evs sub min_score,
     match_posts_with_top_comments Json.loads Demo.fs "nowhere" (evs, None)
       sub min_score
     = (generator_prints evs ++ [Printed ("File not found: " +:+ "nowhere")],
        None)) ∧
  (∀ gen sub min_score,
     rows_of (match_posts_with_top_comments Json.loads Demo.fs "nowhere" gen
                sub min_score).1 = []).
Proof. apply (missing_file Json.loads Demo.fs "nowhere"). reflexivity. Defined.

Lemma end_to_end_witness :
  match_posts_with_top_comments Json.loads
    (λ path, if String.eqb path "x_comments"
             then Some [Scenario.comment_1; Scenario.comment_2]
             else Some [Scenario.post_1])
    "x_submissions"
    (process_comments_in_chunks Json.loads
       (λ path, if String.eqb path "x_comments"
                then Some [Scenario.comment_1; Scenario.comment_2]
                else Some [Scenario.post_1])
       "x_comments" default_batch_size) "x" 0
  = ([Written (Row (VStr "T") (VStr "C") (VInt 10) (VStr "hello") (VInt 5)
                   "x")], None).
Proof.
  apply (end_to_end Json.loads _ "x_comments" "x_submissions" "x"
           default_batch_size); vm_compute; reflexivity.
Defined.

(** * Further properties *)

(** ** The batch threshold and the diagnostics of the grouper *)

Section Unobservable.

Variable loads : string → value + string.

Implicit Types (B : Z) (k : key) (d : ddict) (evs : list event)
  (lines : list string) (fs : filesystem).

Lemma generator_prints_app evs evs' :
  generator_prints (evs ++ evs') = generator_prints evs ++ generator_prints evs'.
Proof. apply flat_map_app. Qed.

Lemma flush_check_prints B k d : generator_prints (flush_check B k d).2 = [].
Proof.
  unfold flush_check. destruct (dd_getitem k d) as [bucket d2].
  by destruct (_ >=? _).
Qed.

Lemma final_flush_prints d : generator_prints (final_flush d) = [].
Proof.
  induction d as [|[k b] d IH]; [done|].
  cbn [final_flush flat_map]. rewrite generator_prints_app.
  fold (final_flush d). rewrite IH. by destruct b.
Qed.

(** The diagnostics and the end of the loop do not depend on the
    threshold nor on the dict. *)
Lemma grouper_loop_diagnostics B lines : ∀ d,
  generator_prints (grouper_loop loads B d lines).1 = (diagnostics loads lines).1 ∧
  match (grouper_loop loads B d lines).2 with
  | Ok _ => None
  | Raise e => Some e
  end = (diagnostics loads lines).2.
Proof.
  induction lines as [|line lines IH]; intros d; [done|].
  rewrite grouper_loop_cons. cbn [diagnostics].
  destruct (verdict_of loads line) as [msg| |k|k c|e]; cbn [apply_verdict];
    try done.
  - destruct (IH d) as [H1 H2]. cbn [fst snd]. by rewrite <- H1, <- H2.
  - destruct (IH d) as [H1 H2]. cbn [fst snd app]. by rewrite H1, H2.
  - pose proof (flush_check_prints B k d) as Hp.
    destruct (flush_check B k d) as [d1 evs]. cbn [fst snd] in *.
    destruct (IH d1) as [H1 H2]. by rewrite generator_prints_app, Hp, H1, H2.
  - pose proof (flush_check_prints B k (dd_append k c d)) as Hp.
    destruct (flush_check B k _) as [d1 evs]. cbn [fst snd] in *.
    destruct (IH d1) as [H1 H2]. by rewrite generator_prints_app, Hp, H1, H2.
Qed.

(** The index after a run that reaches the end of the stream. *)
Lemma index_of_complete_run fs path B lines k :
  1 ≤ B → fs path = Some lines →
  (process_comments_in_chunks loads fs path B).2 = None →
  load_comments (process_comments_in_chunks loads fs path B).1 !! k
  = match eligible_for loads k lines with
    | [] => None
    | l => Some l
    end.
Proof.
  intros HB Hfs Hend.
  destruct (grouper_prefix loads fs path B lines k Hfs) as (rest & Heq & Hrest).
  rewrite (Hrest Hend), app_nil_r in Heq.
  set (evs := (process_comments_in_chunks loads fs path B).1) in *.
  assert (∀ b, (k, b) ∈ batches evs → b ≠ []) as Hne.
  { subst evs. revert Hend. unfold process_comments_in_chunks. rewrite Hfs.
    pose proof (grouper_loop_batches loads B lines [] k) as Hb.
    destruct (grouper_loop loads B [] lines) as [evs [d|e]]; simpl in *;
      [|done].
    intros _ b. rewrite batches_app. intros [H|H]%elem_of_app.
    - specialize (Hb b HB (small_nil B HB) H).
      destruct b; simpl in *; [lia|done].
    - by apply final_flush_batches in H as [? ?]. }
  pose proof (load_comments_lookup evs k) as Hidx.
  pose proof (load_comments_keys evs k) as Hkeys.
  pose proof (yielded_nil k _ Hne) as Hnil.
  rewrite Heq in Hidx, Hnil.
  destruct (eligible_for loads k lines) as [|c l] eqn:He.
  - destruct (load_comments _ !! k) as [x|] eqn:Hx; [|done].
    exfalso. destruct (proj1 Hkeys) as [b Hb]; [by eexists|].
    by apply (proj1 Hnil eq_refl b).
  - destruct (load_comments _ !! k) as [x|] eqn:Hx; [by simpl in Hidx; subst|].
    exfalso. assert (∀ b, (k, b) ∉ batches evs) as Hno.
    { intros b Hb. destruct (proj2 Hkeys) as [? [=]]. by exists b. }
    by apply Hnil in Hno.
Qed.

Lemma verdict_of_record line record msg :
  loads line = inl record → verdict_of loads line ≠ Malformed msg.
Proof.
  unfold verdict_of. intros ->.
  destruct record as [| | | | |kvs]; try done. cbn [py_get bind].
  destruct (truthy _ && truthy _); cbn [bind]; [|done].
  destruct (py_startswith _ _) as [[|]|e]; cbn [bind]; try done.
  destruct (py_contains "[deleted]" _) as [[|]|e]; cbn [bind negb]; try done.
  - by destruct (py_hash _).
  - destruct (py_contains "[removed]" _) as [[|]|e]; cbn [bind negb];
      try done; by destruct (py_hash _).
Qed.

(** What the generator prints and how it ends, for any threshold. *)
Lemma generator_diagnostics fs path B lines :
  fs path = Some lines →
  generator_prints (process_comments_in_chunks loads fs path B).1
    = (diagnostics loads lines).1 ∧
  (process_comments_in_chunks loads fs path B).2 = (diagnostics loads lines).2.
Proof.
  intros Hfs. unfold process_comments_in_chunks. rewrite Hfs.
  destruct (grouper_loop_diagnostics B lines []) as [H1 H2].
  destruct (grouper_loop loads B [] lines) as [evs [d|e]]; cbn [fst snd] in *.
  - by rewrite generator_prints_app, final_flush_prints, app_nil_r.
  - done.
Qed.

(** X1. The batch threshold cannot be observed through the joiner: for
    any two thresholds of at least 1, the joiner fed by the grouper
    prints the same diagnostics, writes the same rows in the same order
    and ends the same way. *)
Theorem batch_size_unobservable fs comments_filepath posts_filepath sub
    min_score B1 B2 :
  1 ≤ B1 → 1 ≤ B2 →
  match_posts_with_top_comments loads fs posts_filepath
    (process_comments_in_chunks loads fs comments_filepath B1) sub min_score
  = match_posts_with_top_comments loads fs posts_filepath
      (process_comments_in_chunks loads fs comments_filepath B2) sub min_score.
Proof.
  intros H1 H2.
  destruct (fs comments_filepath) as [lines|] eqn:Hfs.
  2:{ unfold process_comments_in_chunks. by rewrite Hfs. }
  destruct (generator_diagnostics fs comments_filepath B1 lines Hfs) as [Hp1 He1].
  destruct (generator_diagnostics fs comments_filepath B2 lines Hfs) as [Hp2 He2].
  pose proof (λ k, index_of_complete_run fs comments_filepath B1 lines k H1 Hfs)
    as Hi1.
  pose proof (λ k, index_of_complete_run fs comments_filepath B2 lines k H2 Hfs)
    as Hi2.
  destruct (process_comments_in_chunks loads fs comments_filepath B1)
    as [evs1 r1].
  destruct (process_comments_in_chunks loads fs comments_filepath B2)
    as [evs2 r2].
  cbn [fst snd] in *. subst r1 r2. unfold match_posts_with_top_comments.
  rewrite Hp1, Hp2. destruct ((diagnostics loads lines).2) as [e|]; [done|].
  assert (load_comments evs1 = load_comments evs2) as ->; [|done].
  apply map_eq. intros k. by rewrite Hi1, Hi2.
Qed.

(** The diagnostics of the lines that are not JSON, one for each. *)
Lemma diagnostics_prefix lines :
  (diagnostics loads lines).1
    `prefix_of` flat_map (λ line,
        match loads line with
        | inr msg =>
            [Printed ("Error decoding JSON in comments file: " +:+ msg)]
        | inl _ => []
        end) lines ∧
  ((diagnostics loads lines).2 = None →
   (diagnostics loads lines).1
   = flat_map (λ line,
        match loads line with
        | inr msg =>
            [Printed ("Error decoding JSON in comments file: " +:+ msg)]
        | inl _ => []
        end) lines).
Proof.
  induction lines as [|line lines [IHp IHe]]; [done|].
  cbn [diagnostics flat_map].
  destruct (loads line) as [record|msg] eqn:Hl.
  - pose proof (λ msg, verdict_of_record line record msg Hl) as Hv.
    destruct (verdict_of loads line) as [msg| |k|k c|e]; cbn [app fst snd];
      try done.
    + by destruct (Hv msg).
    + split; [apply prefix_nil|done].
  - assert (verdict_of loads line = Malformed msg) as ->.
    { unfold verdict_of. by rewrite Hl. }
    cbn [fst snd app]. split; [by apply prefix_cons|].
    intros H'. by rewrite IHe.
Qed.

(** X2. When the comments file is there, the generator prints nothing
    but the diagnostics of the lines that are not JSON, one for each
    such line and in the order of the lines: a first part of them when
    it raises on a line, and all of them when it finishes. *)
Theorem grouper_diagnostics fs path B lines :
  fs path = Some lines →
  generator_prints (process_comments_in_chunks loads fs path B).1
    `prefix_of` flat_map (λ line,
        match loads line with
        | inr msg =>
            [Printed ("Error decoding JSON in comments file: " +:+ msg)]
        | inl _ => []
        end) lines ∧
  ((process_comments_in_chunks loads fs path B).2 = None →
   generator_prints (process_comments_in_chunks loads fs path B).1
   = flat_map (λ line,
        match loads line with
        | inr msg =>
            [Printed ("Error decoding JSON in comments file: " +:+ msg)]
        | inl _ => []
        end) lines).
Proof.
  intros Hfs. destruct (generator_diagnostics fs path B lines Hfs) as [Hp He].
  rewrite He, Hp. apply diagnostics_prefix.
Qed.

End Unobservable.

(** ** Runs of the grouper and rows of the joiner *)

Section MoreRuns.

Variable loads : string → value + string.

Implicit Types (B : Z) (k : key) (d : ddict) (evs : list event)
  (lines : list string) (fs : filesystem) (effs : list effect).

Lemma final_flush_filter (d : list (key * list comment)) :
  batches (final_flush d) = filter (λ kb, kb.2 ≠ []) d.
Proof.
  induction d as [|[k b] d IH]; [done|].
  cbn [final_flush flat_map]. rewrite batches_app. fold (final_flush d).
  rewrite IH. destruct b.
  - by rewrite filter_cons_False by (intros H; by apply H).
  - by rewrite filter_cons_True.
Qed.

(** X3. At the end of the stream a key is yielded at most once: the keys
    of the batches that leave then are pairwise distinct. *)
Theorem end_batches_distinct fs path B lines d :
  fs path = Some lines →
  (grouper_loop loads B [] lines).2 = Ok d →
  (process_comments_in_chunks loads fs path B).1
    = (grouper_loop loads B [] lines).1 ++ final_flush d ∧
  NoDup (batches (final_flush d)).*1.
Proof.
  intros Hfs Hd. split.
  - unfold process_comments_in_chunks. rewrite Hfs.
    destruct (grouper_loop loads B [] lines) as [evs r]. simpl in Hd.
    by subst r.
  - rewrite final_flush_filter.
    eapply sublist_NoDup; [|apply fmap_sublist, sublist_filter].
    apply (grouper_loop_wf loads B lines [] d wf_nil Hd).
Qed.

Lemma flush_check_nonpositive B k d :
  B ≤ 0 →
  batches (flush_check B k d).2 = [(k, bucket_of k d)] ∧
  bucket_of k (flush_check B k d).1 = [].
Proof.
  intros HB. unfold flush_check.
  pose proof (dd_getitem_fst k d) as Hf.
  destruct (dd_getitem k d) as [bucket d2]. cbn [fst] in Hf.
  destruct (Z.geb_spec (Z.of_nat (length bucket)) B); [|lia].
  cbn [fst snd batches flat_map app]. rewrite bucket_of_set, decide_True by done.
  by subst.
Qed.

(** A dict whose buckets are all empty has nothing to flush. *)
Lemma final_flush_empty d :
  wf d → (∀ k, bucket_of k d = []) → final_flush d = [].
Proof.
  induction d as [|[k b] d' IH]; intros Hwf He; [done|].
  cbn [final_flush flat_map]. fold (final_flush d').
  pose proof (He k) as Hk. unfold bucket_of in Hk. cbn [dd_lookup] in Hk.
  rewrite decide_True in Hk by done. simpl in Hk. subst b. cbn [snd app].
  apply IH.
  - unfold wf in *. rewrite fmap_cons in Hwf. by apply NoDup_cons in Hwf as [_ ?].
  - intros k'. specialize (He k'). unfold bucket_of in *. cbn [dd_lookup] in He.
    destruct (decide (k' = k)) as [->|Hne]; [|done].
    unfold wf in Hwf. rewrite fmap_cons in Hwf. apply NoDup_cons in Hwf as [Hnin _].
    destruct (dd_lookup k d') as [b|] eqn:Hl; [|done].
    exfalso. apply Hnin. apply list_elem_of_fmap. exists (k, b).
    split; [done|]. by apply dd_lookup_elem.
Qed.

(** The loop at a threshold of 0 or less, on the lines [pre] that do
    not raise followed by nothing or by a line that raises. *)
Lemma nonpositive_loop B rest :
  B ≤ 0 →
  (rest = [] ∨
   ∃ line post e, rest = line :: post ∧ verdict_of loads line = Faulty e) →
  ∀ pre d0,
    Forall (λ line, ∀ e, verdict_of loads line ≠ Faulty e) pre →
    wf d0 → (∀ k, bucket_of k d0 = []) →
    batches (grouper_loop loads B d0 (pre ++ rest)).1
      = flat_map (λ line, immediate (verdict_of loads line)) pre ∧
    ∀ d1, (grouper_loop loads B d0 (pre ++ rest)).2 = Ok d1 →
          wf d1 ∧ ∀ k, bucket_of k d1 = [].
Proof.
  intros HB Hrest pre.
  induction pre as [|line pre IH]; intros d0 Hpre Hwf Hempty.
  - cbn [app flat_map]. destruct Hrest as [->|(line & post & e & -> & Hv)].
    + split; [done|]. by intros d1 [= <-].
    + rewrite grouper_loop_cons, Hv. by cbn [apply_verdict fst snd].
  - apply Forall_cons in Hpre as [Hline Hpre].
    cbn [app flat_map]. rewrite grouper_loop_cons.
    destruct (verdict_of loads line) as [msg| |k|k c|e];
      cbn [apply_verdict immediate fst snd app].
    + apply IH; done.
    + apply IH; done.
    + destruct (flush_check_nonpositive B k d0 HB) as [Hb He].
      pose proof (flush_check_wf B k d0 Hwf) as Hwf'.
      pose proof (flush_check_conserve B k d0) as Hc.
      destruct (flush_check B k d0) as [d2 evs]. cbn [fst snd] in *.
      rewrite batches_app, Hb, Hempty.
      destruct (IH d2) as [-> Hend]; try done.
      intros k'. specialize (Hc k'). rewrite Hempty in Hc.
      by apply app_nil in Hc as [_ ?].
    + destruct (flush_check_nonpositive B k (dd_append k c d0) HB)
        as [Hb He].
      pose proof (flush_check_wf B k _ (dd_append_wf k c d0 Hwf)) as Hwf'.
      pose proof (flush_check_conserve B k (dd_append k c d0)) as Hc.
      destruct (flush_check B k (dd_append k c d0)) as [d2 evs].
      cbn [fst snd] in *. rewrite batches_app, Hb.
      rewrite dd_append_bucket, decide_True, Hempty by done.
      destruct (IH d2) as [-> Hend]; try done.
      intros k'. destruct (decide (k' = k)) as [->|Hne]; [done|].
      specialize (Hc k'). rewrite dd_append_bucket, Hempty in Hc.
      rewrite decide_False in Hc by done.
      by apply app_nil in Hc as [_ ?].
    + by destruct (Hline e).
Qed.

(** X4. With a threshold of 0 or less nothing is ever kept.  Let [pre]
    be the lines before the first one that raises, or all the lines
    when none does.  The batches that the generator yields are those of
    the lines of [pre], one line after the other: a batch of one comment
    for an eligible line, an empty batch for a line that passes the
    test of line 40 with a marker in its body, and nothing for any
    other line; the final flush adds nothing to what the loop
    yielded. *)
Theorem nonpositive_threshold fs path B pre rest :
  B ≤ 0 → fs path = Some (pre ++ rest) →
  Forall (λ line, ∀ e, verdict_of loads line ≠ Faulty e) pre →
  (rest = [] ∨
   ∃ line post e, rest = line :: post ∧ verdict_of loads line = Faulty e) →
  (process_comments_in_chunks loads fs path B).1
    = (grouper_loop loads B [] (pre ++ rest)).1 ∧
  batches (process_comments_in_chunks loads fs path B).1
    = flat_map (λ line, immediate (verdict_of loads line)) pre.
Proof.
  intros HB Hfs Hpre Hrest.
  assert (∀ k, bucket_of k [] = []) as He0 by done.
  destruct (nonpositive_loop B rest HB Hrest pre [] Hpre wf_nil He0)
    as [Hb Hend].
  unfold process_comments_in_chunks. rewrite Hfs.
  destruct (grouper_loop loads B [] (pre ++ rest)) as [evs [d|e]];
    cbn [fst snd] in *; [|done].
  destruct (Hend d eq_refl) as [Hwf He].
  by rewrite (final_flush_empty d Hwf He), app_nil_r.
Qed.

(** An iteration of the joiner writes at most one row. *)
Lemma joiner_step_rows idx sub min_score line effs :
  joiner_step loads idx sub min_score line = Ok effs →
  rows_of effs = [] ∨ ∃ r, effs = [Written r].
Proof.
  intros Hstep. destruct (rows_of effs) as [|r rs] eqn:Hr; [by left|]. right.
  assert (Written r ∈ effs) as Hin.
  { apply rows_of_elem. rewrite Hr. apply list_elem_of_here. }
  destruct (joiner_step_written loads _ _ _ _ _ _ Hstep Hin)
    as (? & ? & ? & ? & ? & ? & ? & ? & _ & _ & _ & _ & _ & _ & _ & -> & _).
  by exists r.
Qed.

(** X5. The joiner never writes more rows than the posts file has
    lines: each line gives at most one row. *)
Theorem rows_bounded_by_posts fs posts_filepath gen sub min_score lines :
  fs posts_filepath = Some lines →
  (length (rows_of (match_posts_with_top_comments loads fs posts_filepath gen
                      sub min_score).1) ≤ length lines)%nat.
Proof.
  intros Hfs. destruct gen as [evs [e|]]; unfold match_posts_with_top_comments.
  - cbn [fst]. rewrite rows_of_generator_prints. simpl. lia.
  - rewrite Hfs.
    assert (length (rows_of (joiner_loop loads (load_comments evs) sub
                               min_score lines).1) ≤ length lines)%nat as Hle.
    { clear Hfs. induction lines as [|line lines IH]; [done|].
      cbn [joiner_loop].
      destruct (joiner_step loads _ sub min_score line) as [effs|e] eqn:Hstep.
      - destruct (joiner_loop loads _ sub min_score lines) as [effs' r'].
        cbn [fst] in *. rewrite rows_of_app, length_app. simpl.
        destruct (joiner_step_rows _ _ _ _ _ Hstep) as [->|[r ->]]; simpl; lia.
      - simpl. lia. }
    destruct (joiner_loop loads _ sub min_score lines) as [effs r'].
    cbn [fst] in *. by rewrite rows_of_app, rows_of_generator_prints.
Qed.

(** X6. Every row the joiner writes comes from a line of the posts
    file: it carries the label it was given, the title and the content
    of that post, neither with a marker, and the score of the post as
    [post.get("score")] reads it, which is at least [min_score] (a post
    without a score counts as 0 and its row has [None] for
    post_score). *)
Theorem written_rows_sound fs posts_filepath gen sub min_score r :
  r ∈ rows_of (match_posts_with_top_comments loads fs posts_filepath gen sub
                 min_score).1 →
  subreddit r = sub ∧
  ¬ has_marker (title r) ∧ ¬ has_marker (content r) ∧
  ((post_score r = VNone ∧ min_score ≤ 0) ∨
   ∃ z, as_int (post_score r) = Some z ∧ min_score ≤ z) ∧
  ∃ lines line post,
    fs posts_filepath = Some lines ∧ line ∈ lines ∧ loads line = inl post ∧
    py_get post "title" (VStr EmptyString) = Ok (title r) ∧
    py_get post "selftext" (VStr EmptyString) = Ok (content r) ∧
    py_get post "score" VNone = Ok (post_score r).
Proof.
  destruct gen as [evs [e|]]; unfold match_posts_with_top_comments.
  { cbn [fst]. rewrite rows_of_generator_prints. intros H.
    by apply elem_of_nil in H. }
  destruct (fs posts_filepath) as [lines|] eqn:Hfs.
  2:{ cbn [fst]. rewrite rows_of_app, rows_of_generator_prints. simpl.
      intros H. by apply elem_of_nil in H. }
  pose proof (joiner_loop_written loads (load_comments evs) sub min_score lines r)
    as Hloop.
  destruct (joiner_loop loads _ sub min_score lines) as [effs r'].
  cbn [fst] in *. rewrite rows_of_app, rows_of_generator_prints. simpl.
  intros Hin%rows_of_elem. destruct (Hloop Hin) as (line & effs' & Hline & Hstep & Hw).
  destruct (joiner_step_written loads _ _ _ _ _ _ Hstep Hw)
    as (post & post_id & title_v & content_v & score_v & ps & k & c & Hl
        & Hacc & Hs & Hge & Hps & Hmax & Hgood & _ & ->).
  destruct Hacc as (_ & Ht & Hc & _ & _ & Ht1 & Ht2 & Hc1 & Hc2).
  assert (∀ n (v : value), py_not_in n v = Ok true → py_contains n v = Ok false)
    as Hnot.
  { intros n v. unfold py_not_in. destruct (py_contains n v) as [[|]|]; done. }
  cbn [subreddit title content post_score]. split_and!; try done.
  - intros [H|H]; [rewrite (Hnot _ _ Ht1) in H|rewrite (Hnot _ _ Ht2) in H]; done.
  - intros [H|H]; [rewrite (Hnot _ _ Hc1) in H|rewrite (Hnot _ _ Hc2) in H]; done.
  - destruct post as [| | | | |kvs]; try done. simpl in Hs, Hps.
    unfold py_ge_int in Hge.
    destruct (assoc "score" kvs) as [v|]; injection Hs as <-;
      injection Hps as <-.
    + right. destruct (as_int v) as [z|]; [|done]. exists z. split; [done|].
      injection Hge as Hge. lia.
    + left. split; [done|]. simpl in Hge. injection Hge as Hge. lia.
  - by exists lines, line, post.
Qed.

End MoreRuns.

(** ** The diagnostics of the joiner *)

Section JoinerPrints.

Variable loads : string → value + string.

Implicit Types (idx : gmap key (list comment)) (effs : list effect)
  (lines : list string) (fs : filesystem).

Lemma prints_of_app effs effs' :
  prints_of (effs ++ effs') = prints_of effs ++ prints_of effs'.
Proof. apply flat_map_app. Qed.

(** An iteration on a line that is JSON prints nothing. *)
Lemma joiner_step_record idx sub min_score line post effs :
  loads line = inl post →
  joiner_step loads idx sub min_score line = Ok effs → prints_of effs = [].
Proof.
  unfold joiner_step. intros ->.
  destruct post as [| | | | |kvs]; try done. cbn [py_get bind].
  destruct (and_then _ _) as [[|]|e]; cbn [bind]; try done.
  2:{ by intros [= <-]. }
  destruct (py_hash _) as [k|e]; cbn [bind]; [|done].
  destruct (py_max _) as [[c|]|e]; cbn [bind]; try done.
  2:{ by intros [= <-]. }
  destruct (py_ge_int (score c) 1) as [[|]|e]; cbn [bind]; try done;
    by intros [= <-].
Qed.

(** X7. The joiner reports each line of the posts file that is not
    JSON with one message, in the order of the lines, and goes on with
    the next line; besides what the generator printed it prints nothing
    else: a first part of these messages when a line makes it raise,
    and all of them when it finishes. *)
Theorem joiner_diagnostics fs posts_filepath evs sub min_score lines :
  fs posts_filepath = Some lines →
  ∃ own,
    prints_of (match_posts_with_top_comments loads fs posts_filepath
                 (evs, None) sub min_score).1
    = prints_of (generator_prints evs) ++ own ∧
    own `prefix_of` flat_map (λ line,
        match loads line with
        | inr msg => ["Error decoding posts file: " +:+ msg]
        | inl _ => []
        end) lines ∧
    ((match_posts_with_top_comments loads fs posts_filepath (evs, None) sub
        min_score).2 = None →
     own = flat_map (λ line,
        match loads line with
        | inr msg => ["Error decoding posts file: " +:+ msg]
        | inl _ => []
        end) lines).
Proof.
  intros Hfs. unfold match_posts_with_top_comments. rewrite Hfs.
  exists (prints_of (joiner_loop loads (load_comments evs) sub min_score
                       lines).1).
  destruct (joiner_loop loads _ sub min_score lines) as [effs r] eqn:Hloop.
  cbn [fst snd]. split; [apply prints_of_app|].
  change effs with (effs, r).1. change r with (effs, r).2 at 2.
  rewrite <- Hloop. clear.
  induction lines as [|line lines [IHp IHe]]; [done|].
  cbn [joiner_loop flat_map].
  destruct (joiner_step loads _ sub min_score line) as [effs|e] eqn:Hstep.
  2:{ split; [apply prefix_nil|done]. }
  destruct (joiner_loop loads _ sub min_score lines) as [effs' r'].
  cbn [fst snd] in *. rewrite prints_of_app.
  assert (prints_of effs
          = match loads line with
            | inr msg => ["Error decoding posts file: " +:+ msg]
            | inl _ => []
            end) as ->.
  { destruct (loads line) as [post|msg] eqn:Hl.
    - by apply (joiner_step_record _ _ _ _ _ _ Hl Hstep).
    - unfold joiner_step in Hstep. rewrite Hl in Hstep.
      by injection Hstep as <-. }
  split; [by apply prefix_app|]. intros H. by rewrite IHe.
Qed.

End JoinerPrints.

(** ** The scan of the directory *)

Section DirectoryFacts.

Variable loads : string → value + string.
Variable path_join : string → string → string.

Implicit Types (fs : filesystem) (w : world) (names : list string)
  (effs : list effect).

Lemma dispatch_passed_over fs dir min_score g pre names :
  Forall passed_over pre →
  dispatch loads path_join fs dir min_score g (pre ++ names)
  = dispatch loads path_join fs dir min_score g names.
Proof.
  induction 1 as [|name pre [Hc Hs] _ IH]; [done|].
  cbn [app dispatch]. by rewrite Hc, Hs.
Qed.

(** X8. A submissions file listed before any comments file makes
    [process_files_in_directory] raise [UnboundLocalError]: nothing is
    written or printed and no file is removed. *)
Theorem submissions_before_comments w dir out min_score pre s rest :
  listing w = pre ++ s :: rest →
  Forall passed_over pre →
  str_suffix "_comments" s = false → str_suffix "_submissions" s = true →
  process_files_in_directory loads path_join w dir out min_score
  = ([], w, Some UnboundLocalError).
Proof.
  intros Hl Hpre Hc Hs. unfold process_files_in_directory.
  rewrite Hl, dispatch_passed_over by done. cbn [dispatch]. by rewrite Hc, Hs.
Qed.

(** With an empty index the joiner writes nothing. *)
Lemma spent_generator_rows fs posts_filepath sub min_score :
  rows_of (match_posts_with_top_comments loads fs posts_filepath ([], None)
             sub min_score).1 = [].
Proof.
  unfold match_posts_with_top_comments. cbn [generator_prints flat_map app].
  destruct (fs posts_filepath) as [lines|]; [|done].
  pose proof (joiner_loop_written loads (load_comments []) sub min_score lines)
    as Hloop.
  destruct (joiner_loop loads _ sub min_score lines) as [effs r]. cbn [fst] in *.
  destruct (rows_of effs) as [|r0 rs] eqn:Hr; [done|]. exfalso.
  destruct (Hloop r0) as (line & effs' & _ & Hstep & Hin).
  { apply rows_of_elem. rewrite Hr. apply list_elem_of_here. }
  destruct (joiner_step_written loads _ _ _ _ _ _ Hstep Hin)
    as (? & ? & ? & ? & ? & ? & k & ? & _ & Hacc & _).
  destruct Hacc as (_ & _ & _ & _ & [b Hb] & _).
  unfold load_comments in Hb. simpl in Hb. by rewrite lookup_empty in Hb.
Qed.

(** X9. A generator serves one submissions file only: once it has been
    exhausted, the submissions files listed before the next comments
    file get an empty index, and no row is written for them. *)
Theorem exhausted_generator_writes_nothing fs dir min_score names :
  Forall (λ name, str_suffix "_comments" name = false) names →
  rows_of (dispatch loads path_join fs dir min_score (Some Spent) names).1 = [].
Proof.
  induction 1 as [|name names Hc _ IH]; [done|].
  cbn [dispatch]. rewrite Hc. destruct (str_suffix "_submissions" name); [|done].
  cbn [drain].
  pose proof (spent_generator_rows fs (path_join dir name)
                (before_underscore name) min_score) as Hrows.
  destruct (match_posts_with_top_comments _ _ _ _ _ _) as [effs [e|]];
    cbn [fst] in *; [done|].
  destruct (dispatch _ _ _ _ _ _ names) as [effs' r']. cbn [fst] in *.
  by rewrite rows_of_app, Hrows, IH.
Qed.

(** X10. A comments file followed by its submissions file, with only
    other names around them: the first loop is one call of the joiner on
    the submissions file, fed by the grouper on the comments file with
    the default batch size, under the label made of the text before the
    first underscore of the submissions name. *)
Theorem one_pair fs dir min_score pre c mid s post :
  Forall passed_over pre → Forall passed_over mid → Forall passed_over post →
  str_suffix "_comments" c = true →
  str_suffix "_comments" s = false → str_suffix "_submissions" s = true →
  dispatch loads path_join fs dir min_score None
    (pre ++ c :: mid ++ s :: post)
  = let run :=
      match_posts_with_top_comments loads fs (path_join dir s)
        (process_comments_in_chunks loads fs (path_join dir c)
           default_batch_size)
        (before_underscore s) min_score in
    (run.1, Escaped <$> run.2).
Proof.
  intros Hpre Hmid Hpost Hc Hsc Hs.
  rewrite dispatch_passed_over by done. cbn [dispatch]. rewrite Hc.
  rewrite dispatch_passed_over by done. cbn [dispatch drain]. rewrite Hsc, Hs.
  destruct (match_posts_with_top_comments _ _ _ _ _ _) as [effs [e|]];
    cbn [fst snd fmap option_fmap option_map]; [done|].
  rewrite <- (app_nil_r post), dispatch_passed_over by done.
  cbn [dispatch]. by rewrite app_nil_r.
Qed.

Lemma os_remove_listing dir name w :
  listing (os_remove path_join dir name w)
  = filter (λ n, n ≠ name) (listing w).
Proof. done. Qed.

Lemma filter_all {A} (P : A → Prop) `{!∀ x, Decision (P x)} (l : list A) :
  (∀ x, P x) → filter P l = l.
Proof.
  intros HP. induction l as [|x l IH]; [done|].
  by rewrite filter_cons_True, IH.
Qed.

Lemma filter_iff_elem {A} (P Q : A → Prop) `{!∀ x, Decision (P x)}
    `{!∀ x, Decision (Q x)} (l : list A) :
  (∀ x, x ∈ l → P x ↔ Q x) → filter P l = filter Q l.
Proof.
  induction l as [|x l IH]; intros HPQ; [done|].
  assert (filter P l = filter Q l) as Hl.
  { apply IH. intros y Hy. apply HPQ. by apply list_elem_of_further. }
  destruct (decide (P x)) as [HP|HP].
  - rewrite !filter_cons_True, Hl; [done| |done].
    by apply HPQ; [apply list_elem_of_here|].
  - rewrite !filter_cons_False, Hl; [done| |done].
    intros HQ. by apply HP, HPQ; [apply list_elem_of_here|].
Qed.

(** The second loop on names that are all there. *)
Lemma cleanup_spec dir names : ∀ w,
  (∀ a b, path_join dir a = path_join dir b → a = b) →
  NoDup names →
  (∀ name, name ∈ names → is_Some (files w (path_join dir name))) →
  ∃ w',
    cleanup path_join dir names w
    = ((λ name, Printed ("Deleted unnecessary file: " +:+ name))
         <$> filter (λ name, str_suffix ".csv" name = false) names,
       w', None) ∧
    listing w'
    = filter (λ name, ¬ (name ∈ names ∧ str_suffix ".csv" name = false))
        (listing w) ∧
    ∀ name,
      files w' (path_join dir name)
      = if decide (name ∈ names ∧ str_suffix ".csv" name = false)
        then None else files w (path_join dir name).
Proof.
  intros w Hinj. revert w.
  induction names as [|name names IH]; intros w Hnd Hall.
  - exists w. split_and!; [done| |].
    + symmetry. apply filter_all. intros x [Hx _]. by apply elem_of_nil in Hx.
    + intros name. rewrite decide_False; [done|].
      intros [Hx _]. by apply elem_of_nil in Hx.
  - apply NoDup_cons in Hnd as [Hnin Hnd]. cbn [cleanup].
    destruct (str_suffix ".csv" name) eqn:Hcsv.
    + destruct (IH w Hnd) as (w' & Hrun & Hlist & Hfiles).
      { intros n Hn. apply Hall. by apply list_elem_of_further. }
      exists w'. split_and!.
      * rewrite Hrun. by rewrite filter_cons_False by congruence.
      * rewrite Hlist. apply list_filter_iff. intros n. split.
        -- intros Hn [[->|Hin]%elem_of_cons Hs]; [congruence|]. by apply Hn.
        -- intros Hn [Hin Hs]. apply Hn. split; [|done].
           by apply list_elem_of_further.
      * intros n. rewrite Hfiles. apply decide_ext. split.
        -- intros [Hin Hs]. split; [|done]. by apply list_elem_of_further.
        -- intros [[->|Hin]%elem_of_cons Hs]; [congruence|done].
    + destruct (Hall name) as [content Hc]; [apply list_elem_of_here|].
      rewrite Hc.
      destruct (IH (os_remove path_join dir name w) Hnd)
        as (w' & Hrun & Hlist & Hfiles).
      { intros n Hn. cbn [os_remove files].
        destruct (String.eqb_spec (path_join dir n) (path_join dir name))
          as [Heq|Hne].
        - apply Hinj in Heq. by subst.
        - apply Hall. by apply list_elem_of_further. }
      exists w'. rewrite Hrun. split_and!.
      * by rewrite filter_cons_True by done.
      * rewrite Hlist. cbn [os_remove listing]. rewrite list_filter_filter.
        apply list_filter_iff. intros n. split.
        -- intros [Hn Hne] [[->|Hin]%elem_of_cons Hs]; [done|]. by apply Hn.
        -- intros Hn. split.
           ++ intros [Hin Hs]. apply Hn. split; [|done].
              by apply list_elem_of_further.
           ++ intros ->. apply Hn. split; [apply list_elem_of_here|done].
      * intros n. rewrite Hfiles. cbn [os_remove files].
        destruct (String.eqb_spec (path_join dir n) (path_join dir name))
          as [Heq|Hne].
        -- apply Hinj in Heq. subst n.
           rewrite decide_False by (by intros [? _]).
           rewrite decide_True; [done|]. split; [apply list_elem_of_here|done].
        -- apply decide_ext. split.
           ++ intros [Hin Hs]. split; [|done]. by apply list_elem_of_further.
           ++ intros [[->|Hin]%elem_of_cons Hs]; [done|done].
Qed.

(** X11. When the first loop ends without an exception, in a directory
    whose listed files are all there, [process_files_in_directory]
    removes every listed file whose name does not end with [.csv] and
    no other, printing one line for each in the order of the listing:
    the directory is left with the [.csv] files, in their order and
    with their contents. *)
Theorem cleanup_keeps_csv_only w dir out min_score effs :
  (∀ a b, path_join dir a = path_join dir b → a = b) →
  NoDup (listing w) →
  (∀ name, name ∈ listing w → is_Some (files w (path_join dir name))) →
  dispatch loads path_join (files w) dir min_score None (listing w)
    = (effs, None) →
  ∃ w',
    process_files_in_directory loads path_join w dir out min_score
    = (effs ++ ((λ name, Printed ("Deleted unnecessary file: " +:+ name))
                  <$> filter (λ name, str_suffix ".csv" name = false)
                        (listing w)),
       w', None) ∧
    listing w' = filter (λ name, str_suffix ".csv" name = true) (listing w) ∧
    ∀ name, name ∈ listing w →
      files w' (path_join dir name)
      = if str_suffix ".csv" name then files w (path_join dir name) else None.
Proof.
  intros Hinj Hnd Hall Hd. unfold process_files_in_directory. rewrite Hd.
  destruct (cleanup_spec dir (listing w) w Hinj Hnd Hall)
    as (w' & -> & Hlist & Hfiles).
  exists w'. split_and!; [done| |].
  - rewrite Hlist. apply filter_iff_elem. intros name Hin. split.
    + intros Hn. destruct (str_suffix ".csv" name) eqn:Hs; [done|].
      by destruct Hn.
    + intros Hs [_ Hf]. congruence.
  - intros name Hin. rewrite Hfiles.
    destruct (str_suffix ".csv" name) eqn:Hs.
    + rewrite decide_False; [done|]. by intros [_ ?].
    + by rewrite decide_True.
Qed.

End DirectoryFacts.

(** ** The names of the files *)

Section Names.

Lemma str_contains_cons needle c s :
  str_contains needle (String c s) = false →
  str_prefix needle (String c s) = false ∧ str_contains needle s = false.
Proof. cbn [str_contains]. by intros [? ?]%orb_false_elim. Qed.

Lemma append_cons c (s t : string) : (String c s +:+ t) = String c (s +:+ t).
Proof. done. Qed.

(** X12. The label of a submissions file is the text before the first
    underscore of its name: it never holds an underscore, and for a name
    [a_b] with no underscore in [a] it is [a].  So a subreddit whose
    name has no underscore is labelled with its name, and one named
    [a_b] is labelled [a]. *)
Theorem label_before_first_underscore (a b s : string) :
  str_contains "_" a = false →
  before_underscore (a +:+ "_" +:+ b) = a ∧
  str_contains "_" (before_underscore s) = false.
Proof.
  intros Ha. split.
  - induction a as [|c a IH]; [done|].
    apply str_contains_cons in Ha as [Hp Ha]. rewrite append_cons.
    cbn [before_underscore]. cbn [str_prefix] in Hp.
    rewrite andb_true_r in Hp. rewrite Ascii.eqb_sym, Hp. by rewrite IH.
  - clear. induction s as [|c s IH]; [done|]. cbn [before_underscore].
    destruct (Ascii.eqb c "_") eqn:Hc; [done|].
    cbn [str_contains str_prefix]. by rewrite Ascii.eqb_sym, Hc, IH.
Qed.

(** The archive suffix cannot begin inside [base] and end in the
    suffix. *)
Lemma zst_prefix_straddle c (base : string) :
  str_prefix ".zst" (String c base +:+ ".zst") = true →
  str_prefix ".zst" (String c base) = true.
Proof.
  rewrite append_cons. cbn [str_prefix].
  destruct (Ascii.eqb "." c); [|done]. cbn [andb].
  destruct base as [|c1 b1]; [done|]. rewrite append_cons.
  destruct (Ascii.eqb "z" c1); [|done]. cbn [andb].
  destruct b1 as [|c2 b2]; [done|]. rewrite append_cons.
  destruct (Ascii.eqb "s" c2); [|done]. cbn [andb].
  destruct b2 as [|c3 b3]; [done|]. rewrite append_cons.
  by destruct (Ascii.eqb "t" c3).
Qed.

Lemma remove_from_suffix (base : string) :
  str_contains ".zst" base = false →
  remove_from ".zst" 0 (base +:+ ".zst") = base.
Proof.
  induction base as [|c base IH]; [done|].
  intros [Hp Hc]%str_contains_cons.
  assert (str_prefix ".zst" (String c base +:+ ".zst") = false) as Hp'.
  { destruct (str_prefix ".zst" (String c base +:+ ".zst")) eqn:H; [|done].
    apply zst_prefix_straddle in H. congruence. }
  rewrite append_cons in *. cbn [remove_from]. rewrite Hp'. by rewrite IH.
Qed.

(** X13. [decompress_file] gives the decompressed file the name of the
    archive without its [.zst] ending, whenever [.zst] occurs nowhere
    else in the name. *)
Theorem decompressed_name_strips_suffix (base : string) :
  str_contains ".zst" base = false →
  decompressed_name (base +:+ ".zst") = base.
Proof. apply remove_from_suffix. Qed.

Lemma no_dot_no_zst (s : string) :
  str_contains "." s = false → str_contains ".zst" s = false.
Proof.
  induction s as [|c s IH]; [done|]. intros [Hp Hc]%str_contains_cons.
  cbn [str_contains]. rewrite IH by done. cbn [str_prefix] in *.
  rewrite andb_true_r in Hp. by rewrite Hp.
Qed.

Lemma no_dot_app (s t : string) :
  str_contains "." s = false → str_contains "." t = false →
  str_contains "." (s +:+ t) = false.
Proof.
  intros Hs Ht. induction s as [|c s IH]; [done|].
  apply str_contains_cons in Hs as [Hp Hs]. rewrite append_cons.
  cbn [str_contains]. rewrite IH by done. cbn [str_prefix] in *.
  by rewrite Hp.
Qed.

Lemma str_suffix_refl (t : string) : str_suffix t t = true.
Proof.
  destruct t as [|a t]; [done|].
  change (str_suffix (String a t) (String a t))
    with (String.eqb (String a t) (String a t) || str_suffix (String a t) t).
  by rewrite String.eqb_refl.
Qed.

Lemma str_suffix_app (n t : string) : str_suffix t (n +:+ t) = true.
Proof.
  induction n as [|c n IH].
  - apply str_suffix_refl.
  - rewrite append_cons. cbn [str_suffix]. rewrite IH. apply orb_true_r.
Qed.

Lemma string_length_app (s t : string) :
  String.length (s +:+ t) = (String.length s + String.length t)%nat.
Proof. induction s as [|c s IH]; simpl; [done|]. by rewrite IH. Qed.

(** A long tail keeps a short suffix out. *)
Lemma str_suffix_app_false (x n t : string) :
  str_suffix x t = false → (String.length x ≤ String.length t)%nat →
  str_suffix x (n +:+ t) = false.
Proof.
  intros Ht Hlen. induction n as [|c n IH]; [done|].
  rewrite append_cons. cbn [str_suffix]. rewrite IH, orb_false_r.
  destruct (String.eqb_spec x (String c (n +:+ t))) as [->|]; [|done].
  simpl in Hlen. rewrite string_length_app in Hlen. lia.
Qed.

(** The names of the archives and of what they decompress to. *)
Lemma archive_names (subreddit_name : string) :
  str_contains "." subreddit_name = false →
  decompressed_name (comments_archive subreddit_name)
    = subreddit_name +:+ "_comments" ∧
  decompressed_name (submissions_archive subreddit_name)
    = subreddit_name +:+ "_submissions" ∧
  str_suffix "_comments" (subreddit_name +:+ "_comments") = true ∧
  str_suffix "_comments" (subreddit_name +:+ "_submissions") = false ∧
  str_suffix "_submissions" (subreddit_name +:+ "_submissions") = true ∧
  Forall (λ name, str_suffix "_comments" name = false ∧
                  str_suffix "_submissions" name = false)
    [comments_archive subreddit_name; submissions_archive subreddit_name] ∧
  Forall (λ name, str_suffix ".csv" name = false)
    [comments_archive subreddit_name; submissions_archive subreddit_name;
     subreddit_name +:+ "_comments"; subreddit_name +:+ "_submissions"].
Proof.
  intros Hdot. unfold comments_archive, submissions_archive.
  assert (∀ t u : string, (subreddit_name +:+ t +:+ u)
                          = ((subreddit_name +:+ t) +:+ u)) as Hassoc.
  { intros t u. induction subreddit_name as [|c n IH]; [done|].
    rewrite !append_cons, IH; [done|]. by apply str_contains_cons in Hdot as [_ ?]. }
  split_and!.
  - change (subreddit_name +:+ "_comments.zst")
      with (subreddit_name +:+ "_comments" +:+ ".zst").
    rewrite (Hassoc "_comments" ".zst").
    apply remove_from_suffix, no_dot_no_zst, no_dot_app; done.
  - change (subreddit_name +:+ "_submissions.zst")
      with (subreddit_name +:+ "_submissions" +:+ ".zst").
    rewrite (Hassoc "_submissions" ".zst").
    apply remove_from_suffix, no_dot_no_zst, no_dot_app; done.
  - apply str_suffix_app.
  - apply str_suffix_app_false; [done|simpl; lia].
  - apply str_suffix_app.
  - repeat constructor; apply str_suffix_app_false; try done; simpl; lia.
  - repeat constructor; apply str_suffix_app_false; try done; simpl; lia.
Qed.

End Names.

Section Pipeline.

Variable path_join : string → string → string.
Variable basename : string → string.

(** X14. For a subreddit whose name has no dot, and for which
    [os.path.basename] gives back the name of each archive from the
    path that [main] joins (a name without a path separator),
    [decompress_file] writes the two archives that [main] downloads to
    the paths of the output directory that the scan takes for the
    comments file and the submissions file; the archives themselves are
    passed over by the scan, and neither they nor the decompressed
    files are kept by its cleanup. *)
Theorem pipeline_names (output_directory subreddit_name : string) :
  str_contains "." subreddit_name = false →
  basename (path_join output_directory (comments_archive subreddit_name))
    = comments_archive subreddit_name →
  basename (path_join output_directory (submissions_archive subreddit_name))
    = submissions_archive subreddit_name →
  output_filepath path_join basename
    (path_join output_directory (comments_archive subreddit_name))
    output_directory
    = path_join output_directory (subreddit_name +:+ "_comments") ∧
  output_filepath path_join basename
    (path_join output_directory (submissions_archive subreddit_name))
    output_directory
    = path_join output_directory (subreddit_name +:+ "_submissions") ∧
  str_suffix "_comments" (subreddit_name +:+ "_comments") = true ∧
  str_suffix "_comments" (subreddit_name +:+ "_submissions") = false ∧
  str_suffix "_submissions" (subreddit_name +:+ "_submissions") = true ∧
  Forall (λ name, str_suffix "_comments" name = false ∧
                  str_suffix "_submissions" name = false)
    [comments_archive subreddit_name; submissions_archive subreddit_name] ∧
  Forall (λ name, str_suffix ".csv" name = false)
    [comments_archive subreddit_name; submissions_archive subreddit_name;
     subreddit_name +:+ "_comments"; subreddit_name +:+ "_submissions"].
Proof.
  intros Hdot Hc Hs.
  destruct (archive_names subreddit_name Hdot)
    as (Hdc & Hds & H1 & H2 & H3 & H4 & H5).
  unfold output_filepath. rewrite Hc, Hs, Hdc, Hds. by split_and!.
Qed.

End Pipeline.

(** Joining with a slash and taking what follows the last slash gives
    the name back when it holds no slash. *)
Lemma basename_path_join (directory filename : string) :
  str_contains "/" filename = false →
  Folder.basename (Folder.path_join directory filename) = filename.
Proof.
  intros Hf. unfold Folder.path_join.
  assert (∀ d : string, str_contains "/" (d +:+ "/" +:+ filename) = true)
    as Hslash.
  { intros d. induction d as [|c d IH]; [done|].
    rewrite append_cons. cbn [str_contains]. rewrite IH. apply orb_true_r. }
  induction directory as [|c d IH].
  - change (EmptyString +:+ "/" +:+ filename) with (String "/" filename).
    cbn [Folder.basename]. by rewrite Hf.
  - rewrite append_cons. cbn [Folder.basename]. by rewrite Hslash.
Qed.

(** ** The download and the names typed in *)

Section DownloadFacts.

Variable py_int : string → option Z.

Lemma append_empty (s : string) : s +:+ EmptyString = s.
Proof. induction s as [|c s IH]; [done|]. by rewrite append_cons, IH. Qed.

Lemma append_assoc (a b c : string) : (a +:+ b) +:+ c = a +:+ b +:+ c.
Proof. induction a as [|x a IH]; [done|]. by rewrite !append_cons, IH. Qed.

Lemma write_chunks_spec (chunks : list string) : ∀ written,
  (write_chunks written chunks).1
    = written +:+ foldr String.append EmptyString chunks ∧
  (write_chunks written chunks).2 = Advance ∘ String.length <$> chunks.
Proof.
  induction chunks as [|data rest IH]; intros written; cbn [write_chunks].
  - split; [|done]. cbn [foldr fst]. by rewrite append_empty.
  - destruct (IH (written +:+ data)) as [H1 H2].
    destruct (write_chunks (written +:+ data) rest) as [content bar].
    cbn [fst snd] in *. subst. split; [|done]. cbn [foldr].
    apply append_assoc.
Qed.

(** X15. A download answered with status 200 leaves at the given path
    exactly the body, that is the chunks put end to end, whatever the
    path held before and however the body was cut into chunks; no other
    file is touched, and the progress bar has advanced by the size of
    the file.  Any other status leaves the disk as it was and prints
    the failure with the status. *)
Theorem download_writes_body (d : disk) (r : response) url output_path
    total_size :
  match content_length r with
  | None => Some 0
  | Some header => py_int header
  end = Some total_size →
  (status_code r = 200 →
   ∃ d' bar,
     download_file py_int d r url output_path
     = (d', Bar total_size :: bar ++ [Say ("Downloaded: " +:+ output_path)],
        false) ∧
     d' output_path = Some (foldr String.append EmptyString (iter_content r)) ∧
     (∀ p, p ≠ output_path → d' p = d p) ∧
     advanced bar
     = String.length (foldr String.append EmptyString (iter_content r))) ∧
  (status_code r ≠ 200 →
   download_file py_int d r url output_path
   = (d, [Say ("Failed to download " +:+ url +:+ ": "
                +:+ py_str (status_code r))], false)).
Proof.
  intros Hlen. unfold download_file. split; intros Hs.
  - rewrite Hs, Hlen. cbn [Z.eqb Pos.eqb].
    destruct (write_chunks_spec (iter_content r) EmptyString) as [Hc Hb].
    destruct (write_chunks EmptyString (iter_content r)) as [content bar].
    cbn [fst snd] in *. simpl in Hc. subst content.
    eexists _, bar. split_and!; [done| | |].
    + unfold disk_write. by rewrite String.eqb_refl.
    + intros p Hp. unfold disk_write.
      by destruct (String.eqb_spec p output_path).
    + subst bar. clear. induction (iter_content r) as [|data rest IH]; [done|].
      cbn [fmap list_fmap foldr advanced compose]. fold (advanced).
      rewrite string_length_app. f_equal. apply IH.
  - destruct (Z.eqb_spec (status_code r) 200); done.
Qed.

End DownloadFacts.

(** X16. The names [main] works on are the lines typed before the first
    line that reads [done] in any mix of upper and lower case, in the
    order they were typed; that line is not among them, the lines after
    it are not read, and without such a line the loop ends only by the
    [EOFError] of [input]. *)
Theorem read_subreddits_until_done (inputs : list string) :
  match read_subreddits inputs with
  | Some (subreddits, unread) =>
      ∃ stop, inputs = subreddits ++ stop :: unread ∧
              lower stop = "done" ∧
              Forall (λ name, lower name ≠ "done") subreddits
  | None => Forall (λ name, lower name ≠ "done") inputs
  end.
Proof.
  induction inputs as [|name rest IH]; [by constructor|].
  cbn [read_subreddits].
  destruct (String.eqb_spec (lower name) "done") as [Heq|Hne].
  - exists name. by split_and!.
  - destruct (read_subreddits rest) as [[subreddits unread]|].
    + destruct IH as (stop & -> & Hstop & Hall). exists stop.
      split_and!; [done|done|by constructor].
    + by constructor.
Qed.

(** ** The further properties on the concrete files *)

Lemma batch_size_unobservable_witness :
  match_posts_with_top_comments Json.loads Demo.fs "demo_submissions"
    (process_comments_in_chunks Json.loads Demo.fs "demo_comments" 2) "demo" 0
  = match_posts_with_top_comments Json.loads Demo.fs "demo_submissions"
      (process_comments_in_chunks Json.loads Demo.fs "demo_comments"
         default_batch_size) "demo" 0.
Proof.
  apply (batch_size_unobservable Json.loads Demo.fs "demo_comments"
           "demo_submissions" "demo" 0 2 default_batch_size).
  - lia.
  - unfold default_batch_size. lia.
Defined.

Lemma grouper_diagnostics_witness :
  generator_prints
    (process_comments_in_chunks Json.loads Demo.fs "demo_comments" 2).1
    `prefix_of` flat_map (λ line,
        match Json.loads line with
        | inr msg =>
            [Printed ("Error decoding JSON in comments file: " +:+ msg)]
        | inl _ => []
        end) Demo.comments ∧
  ((process_comments_in_chunks Json.loads Demo.fs "demo_comments" 2).2 = None →
   generator_prints
     (process_comments_in_chunks Json.loads Demo.fs "demo_comments" 2).1
   = flat_map (λ line,
        match Json.loads line with
        | inr msg =>
            [Printed ("Error decoding JSON in comments file: " +:+ msg)]
        | inl _ => []
        end) Demo.comments).
Proof.
  apply (grouper_diagnostics Json.loads Demo.fs "demo_comments" 2
           Demo.comments).
  reflexivity.
Defined.

Lemma end_batches_distinct_witness :
  (process_comments_in_chunks Json.loads Demo.fs "demo_comments" 2).1
    = (grouper_loop Json.loads 2 [] Demo.comments).1
      ++ final_flush [(Demo.A, [Demo.third]); (Demo.B, [Demo.other])] ∧
  NoDup (batches (final_flush [(Demo.A, [Demo.third]);
                               (Demo.B, [Demo.other])])).*1.
Proof.
  apply (end_batches_distinct Json.loads Demo.fs "demo_comments" 2
           Demo.comments [(Demo.A, [Demo.third]); (Demo.B, [Demo.other])]).
  - reflexivity.
  - vm_compute. reflexivity.
Defined.

Lemma nonpositive_threshold_witness :
  (process_comments_in_chunks Json.loads Demo.faulty_fs "demo_comments" 0).1
    = (grouper_loop Json.loads 0 []
         ([Scenario.comment_1]
          ++ [Json.dq "{'link_id':'t3_B','parent_id':'t3_B'}"])).1 ∧
  batches
    (process_comments_in_chunks Json.loads Demo.faulty_fs "demo_comments" 0).1
    = flat_map (λ line, immediate (verdict_of Json.loads line))
        [Scenario.comment_1].
Proof.
  apply (nonpositive_threshold Json.loads Demo.faulty_fs "demo_comments" 0
           [Scenario.comment_1]
           [Json.dq "{'link_id':'t3_B','parent_id':'t3_B'}"]).
  - lia.
  - vm_compute. reflexivity.
  - constructor; [|constructor]. intros e. vm_compute. discriminate.
  - right. eexists _, [], TypeError. split; [reflexivity|].
    vm_compute. reflexivity.
Defined.

Lemma rows_bounded_by_posts_witness :
  (length (rows_of (match_posts_with_top_comments Json.loads Demo.fs
                      "demo_submissions"
                      (process_comments_in_chunks Json.loads Demo.fs
                         "demo_comments" 2) "demo" 0).1)
   ≤ length Demo.posts)%nat.
Proof.
  apply (rows_bounded_by_posts Json.loads Demo.fs "demo_submissions"
           (process_comments_in_chunks Json.loads Demo.fs "demo_comments" 2)
           "demo" 0 Demo.posts).
  reflexivity.
Defined.

Lemma written_rows_sound_witness :
  subreddit (Row (VStr "T") (VStr "C") (VInt 10) (VStr "second") (VInt 7)
                 "demo") = "demo" ∧
  ¬ has_marker (VStr "T") ∧ ¬ has_marker (VStr "C") ∧
  ((VInt 10 = VNone ∧ 0 ≤ 0) ∨ ∃ z, as_int (VInt 10) = Some z ∧ 0 ≤ z) ∧
  ∃ lines line post,
    Demo.fs "demo_submissions" = Some lines ∧ line ∈ lines ∧
    Json.loads line = inl post ∧
    py_get post "title" (VStr EmptyString) = Ok (VStr "T") ∧
    py_get post "selftext" (VStr EmptyString) = Ok (VStr "C") ∧
    py_get post "score" VNone = Ok (VInt 10).
Proof.
  apply (written_rows_sound Json.loads Demo.fs "demo_submissions"
           (process_comments_in_chunks Json.loads Demo.fs "demo_comments" 2)
           "demo" 0
           (Row (VStr "T") (VStr "C") (VInt 10) (VStr "second") (VInt 7)
                "demo")).
  vm_compute. apply list_elem_of_here.
Defined.

Lemma joiner_diagnostics_witness :
  ∃ own,
    prints_of (match_posts_with_top_comments Json.loads
                 (λ path, if String.eqb path "posts"
                          then Some ["not json"; Scenario.post_1] else None)
                 "posts" ([Yield Demo.A [Demo.first]], None) "demo" 0).1
    = prints_of (generator_prints [Yield Demo.A [Demo.first]]) ++ own ∧
    own `prefix_of` flat_map (λ line,
        match Json.loads line with
        | inr msg => ["Error decoding posts file: " +:+ msg]
        | inl _ => []
        end) ["not json"; Scenario.post_1] ∧
    ((match_posts_with_top_comments Json.loads
        (λ path, if String.eqb path "posts"
                 then Some ["not json"; Scenario.post_1] else None)
        "posts" ([Yield Demo.A [Demo.first]], None) "demo" 0).2 = None →
     own = flat_map (λ line,
        match Json.loads line with
        | inr msg => ["Error decoding posts file: " +:+ msg]
        | inl _ => []
        end) ["not json"; Scenario.post_1]).
Proof.
  apply (joiner_diagnostics Json.loads
           (λ path, if String.eqb path "posts"
                    then Some ["not json"; Scenario.post_1] else None)
           "posts" [Yield Demo.A [Demo.first]] "demo" 0
           ["not json"; Scenario.post_1]).
  reflexivity.
Defined.

Lemma submissions_before_comments_witness :
  process_files_in_directory Json.loads Folder.path_join Folder.unlucky
    "out" "out" 0
  = ([], Folder.unlucky, Some UnboundLocalError).
Proof.
  apply (submissions_before_comments Json.loads Folder.path_join
           Folder.unlucky "out" "out" 0 ["merged_data.csv"]
           "demo_submissions" ["demo_comments"]).
  - reflexivity.
  - repeat constructor.
  - reflexivity.
  - reflexivity.
Defined.

Lemma exhausted_generator_writes_nothing_witness :
  rows_of (dispatch Json.loads Folder.path_join Folder.files "out" 0
             (Some Spent)
             ["demo_submissions"; "demo_submissions.zst"; "merged_data.csv"]).1
  = [].
Proof.
  apply (exhausted_generator_writes_nothing Json.loads Folder.path_join
           Folder.files "out" 0).
  repeat constructor.
Defined.

Lemma one_pair_witness :
  dispatch Json.loads Folder.path_join Folder.files "out" 0 None
    ([] ++ "demo_comments" :: ["demo_comments.zst"]
        ++ "demo_submissions" :: ["demo_submissions.zst"; "merged_data.csv"])
  = let run :=
      match_posts_with_top_comments Json.loads Folder.files
        (Folder.path_join "out" "demo_submissions")
        (process_comments_in_chunks Json.loads Folder.files
           (Folder.path_join "out" "demo_comments") default_batch_size)
        (before_underscore "demo_submissions") 0 in
    (run.1, Escaped <$> run.2).
Proof.
  apply (one_pair Json.loads Folder.path_join Folder.files "out" 0 []
           "demo_comments" ["demo_comments.zst"] "demo_submissions"
           ["demo_submissions.zst"; "merged_data.csv"]);
    try reflexivity; repeat constructor.
Defined.

Lemma cleanup_keeps_csv_only_witness :
  ∃ w',
    process_files_in_directory Json.loads Folder.path_join Folder.sorted
      "out" "out" 0
    = ([Printed "Error decoding JSON in comments file: Expecting value";
        Written (Row (VStr "T") (VStr "C") (VInt 10) (VStr "second") (VInt 7)
                     "demo")]
       ++ ((λ name, Printed ("Deleted unnecessary file: " +:+ name))
             <$> filter (λ name, str_suffix ".csv" name = false)
                   (listing Folder.sorted)),
       w', None) ∧
    listing w'
    = filter (λ name, str_suffix ".csv" name = true) (listing Folder.sorted) ∧
    ∀ name, name ∈ listing Folder.sorted →
      files w' (Folder.path_join "out" name)
      = if str_suffix ".csv" name
        then files Folder.sorted (Folder.path_join "out" name) else None.
Proof.
  apply (cleanup_keeps_csv_only Json.loads Folder.path_join Folder.sorted
           "out" "out" 0).
  - intros a b H. injection H as H. exact H.
  - apply (bool_decide_unpack _). vm_compute. reflexivity.
  - apply Forall_forall. repeat constructor; eexists; vm_compute; reflexivity.
  - vm_compute. reflexivity.
Defined.

Lemma label_before_first_underscore_witness :
  before_underscore ("Ask" +:+ "_" +:+ "Reddit_submissions") = "Ask" ∧
  str_contains "_" (before_underscore "AskReddit_submissions") = false.
Proof.
  apply (label_before_first_underscore "Ask" "Reddit_submissions"
           "AskReddit_submissions").
  reflexivity.
Defined.

Lemma decompressed_name_strips_suffix_witness :
  decompressed_name ("AskReddit_comments" +:+ ".zst") = "AskReddit_comments".
Proof.
  apply (decompressed_name_strips_suffix "AskReddit_comments"). reflexivity.
Defined.

Lemma pipeline_names_witness :
  output_filepath Folder.path_join Folder.basename
    (Folder.path_join "out" (comments_archive "AskReddit")) "out"
    = Folder.path_join "out" ("AskReddit" +:+ "_comments") ∧
  output_filepath Folder.path_join Folder.basename
    (Folder.path_join "out" (submissions_archive "AskReddit")) "out"
    = Folder.path_join "out" ("AskReddit" +:+ "_submissions") ∧
  str_suffix "_comments" ("AskReddit" +:+ "_comments") = true ∧
  str_suffix "_comments" ("AskReddit" +:+ "_submissions") = false ∧
  str_suffix "_submissions" ("AskReddit" +:+ "_submissions") = true ∧
  Forall (λ name, str_suffix "_comments" name = false ∧
                  str_suffix "_submissions" name = false)
    [comments_archive "AskReddit"; submissions_archive "AskReddit"] ∧
  Forall (λ name, str_suffix ".csv" name = false)
    [comments_archive "AskReddit"; submissions_archive "AskReddit";
     "AskReddit" +:+ "_comments"; "AskReddit" +:+ "_submissions"].
Proof.
  apply (pipeline_names Folder.path_join Folder.basename "out" "AskReddit").
  - reflexivity.
  - vm_compute. reflexivity.
  - vm_compute. reflexivity.
Defined.

Lemma download_writes_body_witness :
  ∃ d' bar,
    download_file Folder.py_int Folder.stale Folder.answer
      "https://the-eye.eu/redarcs/files/demo_comments.zst"
      "out/demo_comments.zst"
    = (d', Bar 11 :: bar ++ [Say ("Downloaded: " +:+ "out/demo_comments.zst")],
       false) ∧
    d' "out/demo_comments.zst"
    = Some (foldr String.append EmptyString (iter_content Folder.answer)) ∧
    (∀ p, p ≠ "out/demo_comments.zst" → d' p = Folder.stale p) ∧
    advanced bar
    = String.length
        (foldr String.append EmptyString (iter_content Folder.answer)).
Proof.
  destruct (download_writes_body Folder.py_int Folder.stale Folder.answer
              "https://the-eye.eu/redarcs/files/demo_comments.zst"
              "out/demo_comments.zst" 11) as [Hok _].
  - vm_compute. reflexivity.
  - apply Hok. reflexivity.
Defined.
